(** * Google sign-in endpoint of [backend/main.py]

    A shallow embedding of the [POST /auth/google] handler [auth_google]
    and of the module-level configuration it reads, followed by the
    properties of the session-issuance flow.

    The handler talks to four collaborators that live outside the
    repository: Google's [id_token.verify_oauth2_token], the wall clock
    [datetime.utcnow], the MongoDB collection [db["user"]] and
    [jose.jwt.encode].  Each call to one of them is an _event_ of a small
    program tree; an interpreter answers the events from a per-request
    oracle and a list of stored documents, and records the calls made. *)

From Stdlib Require Import ZArith Ascii String.
From stdpp Require Import gmap strings list fin_maps pretty.

Local Open Scope string_scope.
Local Open Scope Z_scope.

(** ** Python values and built-ins *)

Module Py.

(** The values that occur in verified claims, stored documents, token
    claims and the response: [None], [str], naive [datetime] (counted
    in microseconds since 0001-01-01 00:00:00) and BSON [ObjectId]
    (twelve bytes, as a number below [2^96]). *)
Inductive value : Type :=
| VNone
| VStr (s : string)
| VDatetime (t : Z)
| VObjectId (o : N).

#[global] Instance value_eq_dec : EqDecision value.
Proof. solve_decision. Defined.

(** [d.get(k)]: the stored value, [None] when the key is absent. *)
Definition get (d : gmap string value) (k : string) : value :=
  default VNone (d !! k).

(** Truth value of an object, as used by [not x]. *)
Definition truthy (v : value) : bool :=
  match v with
  | VNone => false
  | VStr s => negb (bool_decide (s = ""))
  | VDatetime _ => true
  | VObjectId _ => true
  end.

(** [v in l] on a list: some element equals [v]. *)
Definition py_in (v : value) (l : list value) : bool :=
  existsb (λ e, bool_decide (e = v)) l.

(** An exception object: its class and the text [str(e)] yields. *)
Record exn : Type := Exception { exn_class : string; exn_str : string }.

Definition ValueError (msg : string) : exn := Exception "ValueError" msg.
Definition OverflowError (msg : string) : exn := Exception "OverflowError" msg.
Definition AttributeError (msg : string) : exn := Exception "AttributeError" msg.

(** *** Decimal and hexadecimal rendering *)

Definition digit_char (n : Z) : ascii :=
  ascii_of_N (Z.to_N (if n <? 10 then 48 + n else 87 + n)).

(** [n] rendered in [base] on exactly [w] characters, zero padded. *)
Fixpoint fixed_width (base : Z) (w : nat) (n : Z) (acc : string) : string :=
  match w with
  | O => acc
  | S w' => fixed_width base w' (n / base) (String (digit_char (n mod base)) acc)
  end.

(** *** [datetime] *)

Definition us_per_second : Z := 1000000.
Definition us_per_minute : Z := 60 * us_per_second.
Definition us_per_day : Z := 86400 * us_per_second.

(** [datetime.min] is instant [0]; [datetime.max] is
    9999-12-31 23:59:59.999999, the last microsecond of day 3652059. *)
Definition datetime_max : Z := 3652059 * us_per_day - 1.

Definition days_before_month (m : Z) : Z :=
  nth (Z.to_nat m) [0; 0; 31; 59; 90; 120; 151; 181; 212; 243; 273; 304; 334] 0.
Definition days_in_month (m : Z) : Z :=
  nth (Z.to_nat m) [0; 31; 28; 31; 30; 31; 30; 31; 31; 30; 31; 30; 31] 0.

(** Year, month and day of the day numbered [n] from 0001-01-01
    (the standard library's [_ord2ymd], with [n = ordinal - 1]). *)
Definition ord2ymd (n : Z) : Z * Z * Z :=
  let n400 := n / 146097 in
  let n := n mod 146097 in
  let n100 := n / 36524 in
  let n := n mod 36524 in
  let n4 := n / 1461 in
  let n := n mod 1461 in
  let n1 := n / 365 in
  let n := n mod 365 in
  let year := n400 * 400 + 1 + n100 * 100 + n4 * 4 + n1 in
  if (n1 =? 4) || (n100 =? 4) then (year - 1, 12, 31)
  else
    let leap := (n1 =? 3) && (negb (n4 =? 24) || (n100 =? 3)) in
    let month := Z.shiftr (n + 50) 5 in
    let preceding :=
      days_before_month month + (if (2 <? month) && leap then 1 else 0) in
    if n <? preceding then
      let month' := month - 1 in
      let preceding' :=
        preceding
        - (days_in_month month' + (if (month' =? 2) && leap then 1 else 0)) in
      (year, month', n - preceding' + 1)
    else (year, month, n - preceding + 1).

(** [str(dt)]: [YYYY-MM-DD HH:MM:SS], then [.ffffff] when the
    microsecond field is not zero. *)
Definition datetime_str (t : Z) : string :=
  let '(y, m, d) := ord2ymd (t / us_per_day) in
  let r := t mod us_per_day in
  let us := r mod us_per_second in
  let s := r / us_per_second in
  fixed_width 10 4 y "" ++ "-" ++ fixed_width 10 2 m "" ++ "-"
  ++ fixed_width 10 2 d "" ++ " " ++ fixed_width 10 2 (s / 3600) "" ++ ":"
  ++ fixed_width 10 2 (s / 60 mod 60) "" ++ ":" ++ fixed_width 10 2 (s mod 60) ""
  ++ (if us =? 0 then "" else "." ++ fixed_width 10 6 us "").

(** [timedelta(minutes=m)], in microseconds.  The day count has to fit
    a C [int] and then the documented range of a [timedelta]. *)
Definition timedelta_minutes (m : Z) : exn + Z :=
  let days := m * us_per_minute / us_per_day in
  if (days <? - 2 ^ 31) || (2 ^ 31 - 1 <? days) then
    inl (OverflowError "Python int too large to convert to C int")
  else if 999999999 <? Z.abs days then
    inl (OverflowError
           ("days=" ++ pretty days ++ "; must have magnitude <= 999999999"))
  else inr (m * us_per_minute).

(** [dt + delta]: the sum has to be a representable [datetime]. *)
Definition datetime_add (t delta : Z) : exn + Z :=
  let r := t + delta in
  if (r <? 0) || (datetime_max <? r) then
    inl (OverflowError "date value out of range")
  else inr r.

(** [str(v)].  An [ObjectId] prints as 24 lowercase hex digits. *)
Definition str (v : value) : string :=
  match v with
  | VNone => "None"
  | VStr s => s
  | VDatetime t => datetime_str t
  | VObjectId o => fixed_width 16 24 (Z.of_N o) ""
  end.

(** *** [int(s)] on a string, base ten

    Surrounding ASCII white space is dropped, one sign is allowed, and
    single underscores may separate digits.  (Digits outside ASCII,
    which [int] also reads, are not covered: such a text is rejected
    here.) *)
Definition is_space (c : ascii) : bool :=
  let n := N_of_ascii c in ((9 <=? n) && (n <=? 13) || (n =? 32))%N.

Definition digit_val (c : ascii) : option Z :=
  let n := Z.of_N (N_of_ascii c) in
  if (48 <=? n) && (n <=? 57) then Some (n - 48) else None.

Fixpoint lstrip (s : string) : string :=
  match s with
  | String c s' => if is_space c then lstrip s' else s
  | EmptyString => s
  end.

(** Reads the digits after the first one; [after_digit] tells whether
    the previous character was a digit (an underscore needs one on
    either side).  Trailing white space ends the literal. *)
Fixpoint int_digits (s : string) (after_digit : bool) (acc : Z) : option Z :=
  match s with
  | EmptyString => if after_digit then Some acc else None
  | String c s' =>
      match digit_val c with
      | Some d => int_digits s' true (10 * acc + d)
      | None =>
          if bool_decide (c = "_"%char) then
            if after_digit then int_digits s' false acc else None
          else if is_space c && after_digit then
            if bool_decide (lstrip s' = "") then Some acc else None
          else None
      end
  end.

(** The message quotes the text (as [repr] does for a text without
    quotes, backslashes or control characters). *)
Definition invalid_literal (s : string) : exn :=
  ValueError ("invalid literal for int() with base 10: '" ++ s ++ "'").

Definition int (s : string) : exn + Z :=
  let body sign t :=
    match t with
    | String c _ =>
        match digit_val c, int_digits t false 0 with
        | Some _, Some n => inr (sign * n)
        | _, _ => inl (invalid_literal s)
        end
    | EmptyString => inl (invalid_literal s)
    end in
  match lstrip s with
  | String "+" t => body 1 t
  | String "-" t => body (-1) t
  | t => body 1 t
  end.

End Py.

Import Py.

(** ** The [user] collection

    A collection is the list of its documents in insertion order; a
    document maps field names to values, all of them scalars.  Only what
    the handler asks of the driver is modelled: equality filters, [$set],
    [$setOnInsert] (on fields [$set] does not name) and [upsert=True] of
    [update_one], and [find_one]. *)

Module Mongo.

(** An equality filter holds of a document when every filter field has
    the filter's value there; a [null] in the filter also matches a
    missing field. *)
Definition matches (filter doc : gmap string value) : bool :=
  forallb (λ kv : string * value, bool_decide (get doc kv.1 = kv.2))
          (map_to_list filter).

Definition find_one (filter : gmap string value)
    (coll : list (gmap string value)) : option (gmap string value) :=
  List.find (matches filter) coll.

(** [$set] on the first matching document, in place. *)
Fixpoint update_first (filter set_ : gmap string value)
    (coll : list (gmap string value)) : option (list (gmap string value)) :=
  match coll with
  | [] => None
  | d :: coll' =>
      if matches filter d then Some ((set_ ∪ d) :: coll')
      else (d ::.) <$> update_first filter set_ coll'
  end.

Definition has_id (oid : N) (coll : list (gmap string value)) : bool :=
  existsb (λ d, bool_decide (get d "_id" = VObjectId oid)) coll.

Definition DuplicateKeyError : exn :=
  Exception "DuplicateKeyError" "E11000 duplicate key error".

(** [update_one(filter, {"$set": set_, "$setOnInsert": set_on_insert},
    upsert)].  Without a match an upsert appends a document made of the
    filter's fields, both operators' fields and the generated [_id];
    the unique index on [_id] rejects an identifier already present. *)
Definition update_one (filter set_ set_on_insert : gmap string value)
    (upsert : bool) (new_id : N) (coll : list (gmap string value))
    : exn + list (gmap string value) :=
  match update_first filter set_ coll with
  | Some coll' => inr coll'
  | None =>
      if upsert then
        if has_id new_id coll then inl DuplicateKeyError
        else inr (coll ++ [ <["_id" := VObjectId new_id]>
                              (set_ ∪ set_on_insert ∪ filter) ])%list
      else inr coll
  end.

End Mongo.

(** ** Programs over external calls *)

Inductive event : Type → Type :=
| VerifyOauth2Token (id_token : string) (audience : option string)
    : event (exn + gmap string value)
| Utcnow : event Z
| UpdateOne (filter set_ set_on_insert : gmap string value) (upsert : bool)
    : event (exn + unit)
| FindOne (filter : gmap string value) : event (exn + option (gmap string value))
| JwtEncode (claims : gmap string value) (key algorithm : string)
    : event (exn + string).

Inductive prog (A : Type) : Type :=
| Ret (a : A)
| Vis {X : Type} (e : event X) (k : X → prog A).

Arguments Ret {A} a.
Arguments Vis {A X} e k.

Fixpoint bind {A B : Type} (p : prog A) (f : A → prog B) : prog B :=
  match p with
  | Ret a => f a
  | Vis e k => Vis e (λ x, bind (k x) f)
  end.

Definition call {X : Type} (e : event X) : prog X := Vis e Ret.

(** Inside [try:], a step that raised skips the rest of the block. *)
Definition try_bind {A B : Type} (p : prog (exn + A))
    (f : A → prog (exn + B)) : prog (exn + B) :=
  bind p (λ r, match r with inl e => Ret (inl e) | inr a => f a end).

Definition raise {A : Type} (e : exn) : prog (exn + A) := Ret (inl e).

Notation "'let*' x ':=' p 'in' k" := (bind p (λ x, k))
  (at level 10, x name, p at level 100, k at level 200, only parsing).
Notation "'let?' x ':=' p 'in' k" := (try_bind p (λ x, k))
  (at level 10, x name, p at level 100, k at level 200, only parsing).

(** ** Module globals of [main.py] *)

Definition JWT_ALG : string := "HS256".

Record settings : Type := Settings {
  JWT_SECRET : string;
  JWT_EXPIRES_MIN : Z;
  GOOGLE_CLIENT_ID : option string
}.

(** What importing the module computes from the process environment;
    [getenv name] is [os.getenv(name)].  A [JWT_EXPIRES_MIN] that [int]
    rejects makes the import itself fail. *)
Definition module_globals (getenv : string → option string) : exn + settings :=
  match Py.int (default "43200" (getenv "JWT_EXPIRES_MIN")) with
  | inl e => inl e
  | inr minutes =>
      inr {| JWT_SECRET := default "dev-secret-change-me" (getenv "JWT_SECRET");
             JWT_EXPIRES_MIN := minutes;
             GOOGLE_CLIENT_ID := getenv "GOOGLE_CLIENT_ID" |}
  end.

(** ** Request and response models *)

Record GoogleCredential : Type := { credential : string }.

(** The dictionary the handler returns: [token] and the [user] view. *)
Record AuthResponse : Type := { token : string; user : gmap string value }.

Record HTTPException : Type := { status_code : Z; detail : string }.

(** The configured database handle; the module global [db] is [None]
    when no database is configured. *)
Variant Database : Type := MongoDatabase.

(** ** The handler *)

Definition accepted_issuers : list value :=
  [VStr "accounts.google.com"; VStr "https://accounts.google.com"].

(** The body of the [try:] block.  Building the transport object
    [google_requests.Request()] calls nothing and is left out; the result
    [res] of the upsert is not used by the handler. *)
Definition auth_google_try (cfg : settings) (payload : GoogleCredential)
    : prog (exn + AuthResponse) :=
  let? idinfo :=
    call (VerifyOauth2Token (credential payload) (GOOGLE_CLIENT_ID cfg)) in
  if negb (py_in (get idinfo "iss") accepted_issuers)
  then raise (ValueError "Wrong issuer.")
  else
    let email := get idinfo "email" in
    let name := get idinfo "name" in
    let picture := get idinfo "picture" in
    let sub := get idinfo "sub" in
    if negb (truthy email) then raise (ValueError "No email in Google token")
    else
      let* now := call Utcnow in
      let? res :=
        call (UpdateOne
                {[ "email" := email ]}
                (<["email" := email]> (<["name" := name]>
                 (<["picture" := picture]> (<["provider" := VStr "google"]>
                 (<["google_sub" := sub]> {[ "updated_at" := VDatetime now ]})))))
                {[ "created_at" := VDatetime now ]}
                true) in
      let? doc := call (FindOne {[ "email" := email ]}) in
      let? user_id :=
        match doc with
        | Some d => Ret (inr (Py.str (get d "_id")))
        | None => raise (AttributeError "'NoneType' object has no attribute 'get'")
        end in
      let* t := call Utcnow in
      let? delta := Ret (timedelta_minutes (JWT_EXPIRES_MIN cfg)) in
      let? exp := Ret (datetime_add t delta) in
      let? token :=
        call (JwtEncode
                (<["sub" := VStr user_id]> (<["email" := email]>
                 {[ "exp" := VDatetime exp ]}))
                (JWT_SECRET cfg) JWT_ALG) in
      Ret (inr {| token := token;
                  user := <["id" := VStr user_id]> (<["email" := email]>
                          (<["name" := name]> (<["picture" := picture]>
                          {[ "provider" := VStr "google" ]}))) |}).

Definition auth_google (cfg : settings) (db : option Database)
    (payload : GoogleCredential) : prog (HTTPException + AuthResponse) :=
  match db with
  | None =>
      Ret (inl {| status_code := 500; detail := "Database not configured" |})
  | Some _ =>
      if bool_decide (credential payload = "")
      then Ret (inl {| status_code := 400; detail := "Missing credential" |})
      else
        let* r := auth_google_try cfg payload in
        match r with
        | inr response => Ret (inr response)
        | inl e =>
            Ret (inl {| status_code := 401;
                        detail := "Invalid Google token: " ++ exn_str e |})
        end
  end.

(** ** Running a request

    What the collaborators answer during one request: the verifier's
    verdict on a credential for an audience, the successive clock
    readings, the identifier the store would give a new document, whether
    the store is unreachable for the write or for the read (the call then
    raises and does nothing), and the token encoder. *)

Record oracle : Type := {
  verify_oauth2_token : string → option string → exn + gmap string value;
  utcnow : nat → Z;
  new_ObjectId : N;
  update_one_fault : option exn;
  find_one_fault : option exn;
  jwt_encode : gmap string value → string → string → exn + string
}.

(** Contents of [db["user"]] and the number of clock readings taken so
    far in the request. *)
Record state : Type := { users : list (gmap string value); reads : nat }.

Inductive call_record : Type :=
| Call {X : Type} (e : event X).

Definition handle (o : oracle) {X : Type} (e : event X) (s : state) : X * state :=
  match e in event X return X * state with
  | VerifyOauth2Token id_token audience =>
      (verify_oauth2_token o id_token audience, s)
  | Utcnow => (utcnow o (reads s), {| users := users s; reads := S (reads s) |})
  | UpdateOne filter set_ set_on_insert upsert =>
      match update_one_fault o with
      | Some e => (inl e, s)
      | None =>
          match Mongo.update_one filter set_ set_on_insert upsert
                  (new_ObjectId o) (users s) with
          | inl e => (inl e, s)
          | inr coll => (inr (), {| users := coll; reads := reads s |})
          end
      end
  | FindOne filter =>
      match find_one_fault o with
      | Some e => (inl e, s)
      | None => (inr (Mongo.find_one filter (users s)), s)
      end
  | JwtEncode claims key algorithm => (jwt_encode o claims key algorithm, s)
  end.

(** Result, final state and the external calls made, in order. *)
Fixpoint run {A : Type} (o : oracle) (p : prog A) (s : state)
    : A * state * list call_record :=
  match p with
  | Ret a => (a, s, [])
  | Vis e k =>
      let '(x, s1) := handle o e s in
      let '(a, s2, calls) := run o (k x) s1 in
      (a, s2, Call e :: calls)
  end.

(** One request against the collection [coll]: the response, the
    collection afterwards and the calls made. *)
Definition serve (cfg : settings) (db : option Database) (o : oracle)
    (payload : GoogleCredential) (coll : list (gmap string value))
    : (HTTPException + AuthResponse) * list (gmap string value) * list call_record :=
  let '(r, s, calls) :=
    run o (auth_google cfg db payload) {| users := coll; reads := 0 |} in
  (r, users s, calls).

Definition response_of (cfg : settings) (db : option Database) (o : oracle)
    (payload : GoogleCredential) (coll : list (gmap string value))
    : HTTPException + AuthResponse := (serve cfg db o payload coll).1.1.

Definition store_after (cfg : settings) (db : option Database) (o : oracle)
    (payload : GoogleCredential) (coll : list (gmap string value))
    : list (gmap string value) := (serve cfg db o payload coll).1.2.

Definition calls_of (cfg : settings) (db : option Database) (o : oracle)
    (payload : GoogleCredential) (coll : list (gmap string value))
    : list call_record := (serve cfg db o payload coll).2.

(** Requests served one after the other; each comes with its own oracle.
    The result lists, per request, the response and the collection right
    after it. *)
Fixpoint serve_all (cfg : settings) (db : option Database)
    (reqs : list (oracle * GoogleCredential)) (coll : list (gmap string value))
    : list ((HTTPException + AuthResponse) * list (gmap string value)) :=
  match reqs with
  | [] => []
  | (o, payload) :: reqs' =>
      let r := response_of cfg db o payload coll in
      let coll' := store_after cfg db o payload coll in
      (r, coll') :: serve_all cfg db reqs' coll'
  end.

Definition is_utcnow (c : call_record) : bool :=
  match c with Call Utcnow => true | _ => false end.
Definition is_store_call (c : call_record) : bool :=
  match c with Call (UpdateOne _ _ _ _) | Call (FindOne _) => true | _ => false end.
Definition is_jwt_encode (c : call_record) : bool :=
  match c with Call (JwtEncode _ _ _) => true | _ => false end.

(** ** A concrete scenario *)

Module Scenario.

Definition cfg : settings :=
  {| JWT_SECRET := "dev-secret-change-me"; JWT_EXPIRES_MIN := 43200;
     GOOGLE_CLIENT_ID := Some "client-1" |}.

(** A toy encoder: the subject followed by the key and the algorithm. *)
Definition toy_encode (claims : gmap string value) (key alg : string)
    : exn + string :=
  inr (Py.str (get claims "sub") ++ "." ++ key ++ "." ++ alg).

Definition alice (name : value) : gmap string value :=
  <["iss" := VStr "accounts.google.com"]> (<["sub" := VStr "g-1001"]>
  (<["email" := VStr "alice@example.com"]> (<["name" := name]>
  {[ "picture" := VStr "https://example.com/a.png" ]}))).

Definition oracle_for (idinfo : gmap string value) (t : Z) (oid : N) : oracle :=
  {| verify_oauth2_token := λ _ _, inr idinfo;
     utcnow := λ n, t + Z.of_nat n;
     new_ObjectId := oid;
     update_one_fault := None;
     find_one_fault := None;
     jwt_encode := toy_encode |}.

Definition t0 : Z := 63900000000000000.

Definition first := oracle_for (alice (VStr "Alice")) t0 255.
Definition second := oracle_for (alice (VStr "Alice B.")) (t0 + 5000000) 256.
Definition third :=
  oracle_for (delete "name" (alice VNone)) (t0 + 9000000) 257.

Definition cred : GoogleCredential := {| credential := "header.payload.sig" |}.

End Scenario.

(** ** The documents and dictionaries the handler builds *)

(** The [$set] document of the upsert. *)
Definition set_fields (idinfo : gmap string value) (now : Z) : gmap string value :=
  <["email" := get idinfo "email"]> (<["name" := get idinfo "name"]>
  (<["picture" := get idinfo "picture"]> (<["provider" := VStr "google"]>
  (<["google_sub" := get idinfo "sub"]> {[ "updated_at" := VDatetime now ]})))).

Definition by_email (email : value) : gmap string value := {[ "email" := email ]}.

(** The claims handed to [jwt.encode]. *)
Definition token_claims (user_id : string) (email : value) (exp : Z)
    : gmap string value :=
  <["sub" := VStr user_id]> (<["email" := email]> {[ "exp" := VDatetime exp ]}).

(** The [user] entry of the response. *)
Definition user_view (user_id : string) (idinfo : gmap string value)
    : gmap string value :=
  <["id" := VStr user_id]> (<["email" := get idinfo "email"]>
  (<["name" := get idinfo "name"]> (<["picture" := get idinfo "picture"]>
  {[ "provider" := VStr "google" ]}))).

(** The document an upsert inserts for [idinfo] at time [now]. *)
Definition new_record (idinfo : gmap string value) (now : Z) (oid : N)
    : gmap string value :=
  <["_id" := VObjectId oid]>
    (set_fields idinfo now ∪ {[ "created_at" := VDatetime now ]}
     ∪ by_email (get idinfo "email")).

(** The fields declared by [class UserOut]. *)
Definition UserOut_fields : list string :=
  ["id"; "email"; "name"; "picture"; "provider"].

(** The records of a collection keyed on [email]. *)
Definition records_for (email : value) (coll : list (gmap string value))
    : list (gmap string value) :=
  List.filter (Mongo.matches (by_email email)) coll.

(** The status of each failure response. *)
Definition verification_failure_status : Z := 401.
Definition missing_credential_status : Z := 400.
Definition is_server_error (status : Z) : Prop := 500 ≤ status < 600.

(** The fields the upsert's [$set] writes, and the fields of a record
    the upsert inserts. *)
Definition written_fields : gset string :=
  {[ "email"; "name"; "picture"; "provider"; "google_sub"; "updated_at" ]}.

Definition user_record_fields : gset string :=
  {[ "_id"; "email"; "name"; "picture"; "provider"; "google_sub";
     "updated_at"; "created_at" ]}.


(** The response of a request tells which verified email it carried. *)
Definition authenticated_as (email : value) (r : HTTPException + AuthResponse)
    : Prop :=
  match r with
  | inr a => get (user a) "email" = email
  | inl _ => False
  end.

Definition authenticated_asb (email : value) (r : HTTPException + AuthResponse)
    : bool :=
  match r with
  | inr a => bool_decide (get (user a) "email" = email)
  | inl _ => false
  end.

(** What holds right after each request of a run of sign-ins for [email]
    over a collection [coll] that had no record for it: the collection is
    [coll] followed by one record, the only one keyed on [email]; the
    record carries the identifier [oid] and the created timestamp
    [created], its updated timestamp is the first clock reading of the
    request just served, and the response returns the printed [oid]. *)
Definition one_record_after (coll : list (gmap string value)) (email : value)
    (oid : N) (created : Z) (req : oracle * GoogleCredential)
    (rc : (HTTPException + AuthResponse) * list (gmap string value)) : Prop :=
  ∃ d a,
    rc.2 = (coll ++ [d])%list
    ∧ records_for email rc.2 = [d]
    ∧ get d "_id" = VObjectId oid
    ∧ get d "created_at" = VDatetime created
    ∧ get d "updated_at" = VDatetime (utcnow req.1 0)
    ∧ rc.1 = inr a
    ∧ get (user a) "id" = VStr (Py.str (VObjectId oid)).

(** ** Further scenarios *)

Module Outage.

Import Scenario.

Definition timeout : exn :=
  Exception "ServerSelectionTimeoutError" "localhost:27017: timed out".

(** The store is reachable for the write and lost before the read. *)
Definition lost_before_read : oracle :=
  {| verify_oauth2_token := λ _ _, inr (alice (VStr "Alice"));
     utcnow := λ n, t0 + Z.of_nat n;
     new_ObjectId := 255;
     update_one_fault := None;
     find_one_fault := Some timeout;
     jwt_encode := toy_encode |}.

Definition lost_before_write : oracle :=
  {| verify_oauth2_token := λ _ _, inr (alice (VStr "Alice"));
     utcnow := λ n, t0 + Z.of_nat n;
     new_ObjectId := 255;
     update_one_fault := Some timeout;
     find_one_fault := Some timeout;
     jwt_encode := toy_encode |}.

End Outage.

Module Forged.

Import Scenario.

(** A credential naming the issuer [evil.com]. *)
Definition evil : gmap string value :=
  <["iss" := VStr "evil.com"]> (alice (VStr "Alice")).

(** ... whose signature the verifier accepts, *)
Definition accepted : oracle := oracle_for evil t0 255.

(** ... and whose signature the verifier refuses. *)
Definition refused : oracle :=
  {| verify_oauth2_token :=
       λ _ _, inl (ValueError "Could not verify token signature.");
     utcnow := λ n, t0 + Z.of_nat n;
     new_ObjectId := 255;
     update_one_fault := None;
     find_one_fault := None;
     jwt_encode := toy_encode |}.

Definition no_email : oracle :=
  oracle_for (delete "email" (alice (VStr "Alice"))) t0 255.

End Forged.

(** A second user, and Alice coming back with unchanged claims. *)
Module TwoUsers.

Import Scenario.

Definition bob : gmap string value :=
  <["iss" := VStr "https://accounts.google.com"]> (<["sub" := VStr "g-2002"]>
  (<["email" := VStr "bob@example.com"]> {[ "name" := VStr "Bob" ]})).

(** Bob's record, as his own sign-in made it. *)
Definition bob_record : gmap string value := new_record bob (t0 - 1000000) 16.

Definition alice_again : oracle :=
  oracle_for (alice (VStr "Alice")) (t0 + 7000000) 300.

End TwoUsers.

(** A configuration whose duration no [datetime] can hold. *)
Module Overflow.

Definition cfg : settings :=
  {| JWT_SECRET := "dev-secret-change-me"; JWT_EXPIRES_MIN := 10 ^ 10;
     GOOGLE_CLIENT_ID := Some "client-1" |}.

End Overflow.

(** Alice signs in three times: as "Alice", as "Alice B.", and with no
    name claim. *)
Definition three_sign_ins : list (oracle * GoogleCredential) :=
  [(Scenario.first, Scenario.cred); (Scenario.second, Scenario.cred);
   (Scenario.third, Scenario.cred)].

(** ** The diagnostics endpoint [GET /test] *)

Module Diagnostics.

(** The values of the dictionary [test_database] returns: [None], a
    string, or a list of collection names. *)
Inductive jvalue : Type :=
| JNone
| JStr (s : string)
| JList (l : list string).

(** What the endpoint sees of the database object: its [name]
    attribute, when it has one, and what [list_collection_names()]
    answers. *)
Record DbHandle : Type := {
  handle_name : option string;
  list_collection_names : exn + list string
}.

(** The outcome of [from database import db] (an exception, [None] or a
    database object) and the process environment. *)
Record world : Type := {
  import_db : exn + option DbHandle;
  getenv : string → option string
}.

(** The clause [except ImportError] catches the class and its subclass
    for a module that is not found. *)
Definition is_ImportError (e : exn) : bool :=
  bool_decide (exn_class e = "ImportError")
  || bool_decide (exn_class e = "ModuleNotFoundError").

(** Truth value of [os.getenv(name)]: set and not empty. *)
Definition env_truthy (v : option string) : bool :=
  match v with
  | Some s => negb (bool_decide (s = ""))
  | None => false
  end.

(** Strings are kept as UTF-8 bytes.  A byte [10xxxxxx] continues the
    character started before it. *)
Definition is_continuation (c : ascii) : bool :=
  let n := N_of_ascii c in ((128 <=? n) && (n <? 192))%N.

(** [s[:n]]: the first [n] characters. *)
Fixpoint utf8_take (n : nat) (s : string) : string :=
  match s with
  | EmptyString => EmptyString
  | String c s' =>
      if is_continuation c then String c (utf8_take n s')
      else match n with
           | O => EmptyString
           | S n' => String c (utf8_take n' s')
           end
  end.

(** [len(s)]: the number of characters. *)
Fixpoint utf8_length (s : string) : nat :=
  match s with
  | EmptyString => O
  | String c s' =>
      if is_continuation c then utf8_length s' else S (utf8_length s')
  end.

Definition test_database (w : world) : gmap string jvalue :=
  let response : gmap string jvalue :=
    <["backend" := JStr "✅ Running"]>
    (<["database" := JStr "❌ Not Available"]>
    (<["database_url" := JNone]>
    (<["database_name" := JNone]>
    (<["connection_status" := JStr "Not Connected"]>
    {[ "collections" := JList [] ]})))) in
  let response :=
    match import_db w with
    | inr (Some _db) =>
        let response := <["database" := JStr "❌ Not Available"]> response in
        let response := <["database_url" := JStr "✅ Configured"]> response in
        let response :=
          <["database_name" :=
              JStr (default "✅ Connected" (handle_name _db))]> response in
        let response := <["connection_status" := JStr "Connected"]> response in
        match list_collection_names _db with
        | inr collections =>
            let response :=
              <["collections" := JList (take 10 collections)]> response in
            <["database" := JStr "✅ Connected & Working"]> response
        | inl e =>
            <["database" :=
                JStr ("⚠️  Connected but Error: "
                      ++ utf8_take 50 (exn_str e))]> response
        end
    | inr None =>
        <["database" := JStr "⚠️  Available but not initialized"]> response
    | inl e =>
        if is_ImportError e then
          <["database" :=
              JStr "❌ Database module not found (run enable-database first)"]>
            response
        else
          <["database" := JStr ("❌ Error: " ++ utf8_take 50 (exn_str e))]> response
    end in
  let response :=
    <["database_url" :=
        JStr (if env_truthy (getenv w "DATABASE_URL")
              then "✅ Set" else "❌ Not Set")]> response in
  <["database_name" :=
      JStr (if env_truthy (getenv w "DATABASE_NAME")
            then "✅ Set" else "❌ Not Set")]> response.

(** The keys of the dictionary the endpoint starts from. *)
Definition report_fields : gset string :=
  {[ "backend"; "database"; "database_url"; "database_name";
     "connection_status"; "collections" ]}.

End Diagnostics.

(** ** The port of the [__main__] block

    [int(os.getenv("PORT", 8000))]: the text of the variable when it is
    set, the number 8000 otherwise. *)
Definition PORT (getenv : string → option string) : exn + Z :=
  match getenv "PORT" with
  | Some s => Py.int s
  | None => inr 8000
  end.

(** ** The kinds of external calls *)

Inductive call_kind : Type :=
| KVerify | KUtcnow | KUpdateOne | KFindOne | KJwtEncode.

Definition kind_of (c : call_record) : call_kind :=
  match c with
  | Call (VerifyOauth2Token _ _) => KVerify
  | Call Utcnow => KUtcnow
  | Call (UpdateOne _ _ _ _) => KUpdateOne
  | Call (FindOne _) => KFindOne
  | Call (JwtEncode _ _ _) => KJwtEncode
  end.

(** The order in which the handler reaches its collaborators. *)
Definition call_order : list call_kind :=
  [KVerify; KUtcnow; KUpdateOne; KFindOne; KUtcnow; KJwtEncode].

(** * Properties *)

(** ** The built-ins on sample inputs *)

Example int_default : Py.int "43200" = inr 43200.
Proof. reflexivity. Qed.
Example int_forms :
  Py.int " 12 " = inr 12 ∧ Py.int "-1_2_3 " = inr (-123) ∧ Py.int "007" = inr 7
  ∧ Py.int "0_0" = inr 0 ∧ (∀ z, Py.int "1__0" ≠ inr z) ∧ (∀ z, Py.int "1_" ≠ inr z)
  ∧ (∀ z, Py.int "" ≠ inr z) ∧ (∀ z, Py.int "+ 5" ≠ inr z) ∧ (∀ z, Py.int "1 2" ≠ inr z)
  ∧ (∀ z, Py.int "_1" ≠ inr z) ∧ (∀ z, Py.int "+-5" ≠ inr z).
Proof. repeat split; try reflexivity; intros z; discriminate. Qed.

Example str_datetime :
  Py.str (VDatetime 0) = "0001-01-01 00:00:00"
  ∧ Py.str (VDatetime datetime_max) = "9999-12-31 23:59:59.999999".
Proof. split; reflexivity. Qed.

(** ** Facts about the collection operations *)

Section MongoFacts.

Implicit Types (d filter upd soi : gmap string value).
Implicit Types (coll : list (gmap string value)).

Lemma matches_by_email email d :
  Mongo.matches (by_email email) d = bool_decide (get d "email" = email).
Proof.
  unfold Mongo.matches, by_email. rewrite map_to_list_singleton. simpl.
  apply andb_true_r.
Qed.

Lemma update_first_none filter upd coll :
  List.filter (Mongo.matches filter) coll = [] →
  Mongo.update_first filter upd coll = None.
Proof.
  induction coll as [|d coll IH]; simpl; [done|].
  destruct (Mongo.matches filter d); [done|].
  intros H. by rewrite IH.
Qed.

Lemma update_first_hit filter upd coll1 d coll2 :
  List.filter (Mongo.matches filter) coll1 = [] →
  Mongo.matches filter d = true →
  Mongo.update_first filter upd (coll1 ++ d :: coll2)%list
  = Some (coll1 ++ (upd ∪ d) :: coll2)%list.
Proof.
  intros H1 Hd. induction coll1 as [|x coll1 IH]; simpl in *.
  - by rewrite Hd.
  - destruct (Mongo.matches filter x); [done|]. by rewrite IH.
Qed.

Lemma find_one_hit filter coll1 d coll2 :
  List.filter (Mongo.matches filter) coll1 = [] →
  Mongo.matches filter d = true →
  Mongo.find_one filter (coll1 ++ d :: coll2)%list = Some d.
Proof.
  unfold Mongo.find_one. intros H1 Hd.
  induction coll1 as [|x coll1 IH]; simpl in *.
  - by rewrite Hd.
  - destruct (Mongo.matches filter x); [done | by apply IH].
Qed.

Lemma find_one_matches filter coll d :
  Mongo.find_one filter coll = Some d → Mongo.matches filter d = true ∧ d ∈ coll.
Proof.
  unfold Mongo.find_one. intros H. apply find_some in H as [Hin Hm].
  split; [done | by apply list_elem_of_In].
Qed.

Lemma filter_app_last {A} (f : A → bool) (l : list A) (x : A) :
  List.filter f l = [] → f x = true → List.filter f (l ++ [x])%list = [x].
Proof.
  intros Hl Hx. rewrite List.filter_app, Hl. simpl. by rewrite Hx.
Qed.

(** Without a match the upsert appends exactly one document, unless the
    generated identifier is taken. *)
Lemma update_one_insert filter upd soi oid coll :
  List.filter (Mongo.matches filter) coll = [] →
  Mongo.update_one filter upd soi true oid coll
  = if Mongo.has_id oid coll then inl Mongo.DuplicateKeyError
    else inr (coll ++ [ <["_id" := VObjectId oid]> (upd ∪ soi ∪ filter) ])%list.
Proof. intros H. unfold Mongo.update_one. by rewrite update_first_none. Qed.

(** With a match the first matching document is rewritten in place. *)
Lemma update_one_modify filter upd soi up oid coll1 d coll2 :
  List.filter (Mongo.matches filter) coll1 = [] →
  Mongo.matches filter d = true →
  Mongo.update_one filter upd soi up oid (coll1 ++ d :: coll2)%list
  = inr (coll1 ++ (upd ∪ d) :: coll2)%list.
Proof.
  intros H1 Hd. unfold Mongo.update_one. by rewrite update_first_hit.
Qed.

(** Every collection splits at its first record for a filter. *)
Lemma first_match_split filter coll :
  List.filter (Mongo.matches filter) coll = []
  ∨ ∃ coll1 d coll2, coll = (coll1 ++ d :: coll2)%list
      ∧ List.filter (Mongo.matches filter) coll1 = []
      ∧ Mongo.matches filter d = true.
Proof.
  induction coll as [|x coll IH]; [by left|].
  destruct (Mongo.matches filter x) eqn:Hx.
  - right. exists [], x, coll. by simpl.
  - destruct IH as [IH | (c1 & d & c2 & -> & H1 & Hd)].
    + left. simpl. by rewrite Hx.
    + right. exists (x :: c1), d, c2. simpl. by rewrite Hx.
Qed.

End MongoFacts.

(** ** Field-level facts *)

Lemma dom_set_fields idinfo now : dom (set_fields idinfo now) = written_fields.
Proof.
  unfold set_fields, written_fields.
  rewrite !dom_insert_L, dom_singleton_L. set_solver.
Qed.

Lemma set_fields_lookup idinfo now :
  set_fields idinfo now !! "email" = Some (get idinfo "email")
  ∧ set_fields idinfo now !! "name" = Some (get idinfo "name")
  ∧ set_fields idinfo now !! "picture" = Some (get idinfo "picture")
  ∧ set_fields idinfo now !! "provider" = Some (VStr "google")
  ∧ set_fields idinfo now !! "google_sub" = Some (get idinfo "sub")
  ∧ set_fields idinfo now !! "updated_at" = Some (VDatetime now).
Proof. unfold set_fields. repeat split; by simplify_map_eq. Qed.

Lemma set_fields_other idinfo now k :
  k ∉ written_fields → set_fields idinfo now !! k = None.
Proof.
  intros H. apply not_elem_of_dom. by rewrite dom_set_fields.
Qed.

(** [$set] keeps every field it does not name. *)
Lemma set_union_other idinfo now d k :
  k ∉ written_fields → (set_fields idinfo now ∪ d) !! k = d !! k.
Proof.
  intros H. apply lookup_union_r. by apply set_fields_other.
Qed.

Lemma set_union_written idinfo now d k v :
  set_fields idinfo now !! k = Some v → get (set_fields idinfo now ∪ d) k = v.
Proof.
  intros H. unfold get. by erewrite lookup_union_Some_l.
Qed.

Lemma new_record_lookup idinfo now oid :
  let r := new_record idinfo now oid in
  r !! "_id" = Some (VObjectId oid)
  ∧ r !! "email" = Some (get idinfo "email")
  ∧ r !! "name" = Some (get idinfo "name")
  ∧ r !! "picture" = Some (get idinfo "picture")
  ∧ r !! "provider" = Some (VStr "google")
  ∧ r !! "google_sub" = Some (get idinfo "sub")
  ∧ r !! "updated_at" = Some (VDatetime now)
  ∧ r !! "created_at" = Some (VDatetime now).
Proof.
  destruct (set_fields_lookup idinfo now) as (H1 & H2 & H3 & H4 & H5 & H6).
  unfold new_record. cbv zeta.
  split; [by rewrite lookup_insert_eq|].
  rewrite !lookup_insert_ne by done.
  repeat split;
    try (erewrite lookup_union_Some_l; [done|];
         erewrite lookup_union_Some_l; [done|]; done).
Qed.

Lemma dom_new_record idinfo now oid :
  dom (new_record idinfo now oid) = user_record_fields.
Proof.
  unfold new_record, by_email, user_record_fields.
  rewrite dom_insert_L, !dom_union_L, dom_set_fields, !dom_singleton_L.
  unfold written_fields. set_solver.
Qed.

(** ** Tracing the handler *)

Lemma timedelta_minutes_inr m delta :
  timedelta_minutes m = inr delta → delta = m * us_per_minute.
Proof.
  unfold timedelta_minutes. repeat case_match; congruence.
Qed.

Lemma datetime_add_inr t delta r :
  datetime_add t delta = inr r → r = t + delta.
Proof.
  unfold datetime_add. case_match; congruence.
Qed.

Ltac exec :=
  cbn -[insert singletonM union Mongo.update_one Mongo.find_one
        timedelta_minutes datetime_add Py.str get py_in truthy append].

Ltac open_handler :=
  unfold response_of, store_after, calls_of, serve, auth_google, auth_google_try.

Section Trace.

Variables (cfg : settings) (o : oracle) (payload : GoogleCredential).
Variable coll : list (gmap string value).

Local Abbreviation verify_call :=
  (Call (VerifyOauth2Token (credential payload) (GOOGLE_CLIENT_ID cfg))).

Local Abbreviation update_call idinfo :=
  (Call (UpdateOne (by_email (get idinfo "email"))
           (set_fields idinfo (utcnow o 0))
           {[ "created_at" := VDatetime (utcnow o 0) ]} true)).

Local Abbreviation find_call idinfo :=
  (Call (FindOne (by_email (get idinfo "email")))).

Lemma serve_unconfigured :
  serve cfg None o payload coll
  = (inl {| status_code := 500; detail := "Database not configured" |},
     coll, []).
Proof. reflexivity. Qed.

Lemma serve_empty_credential db :
  credential payload = "" →
  serve cfg (Some db) o payload coll
  = (inl {| status_code := 400; detail := "Missing credential" |}, coll, []).
Proof.
  intros H. open_handler. rewrite bool_decide_eq_true_2 by done. reflexivity.
Qed.

Section Configured.

Variable db : Database.
Hypothesis nonempty : credential payload ≠ "".

Lemma serve_rejected e :
  verify_oauth2_token o (credential payload) (GOOGLE_CLIENT_ID cfg) = inl e →
  serve cfg (Some db) o payload coll
  = (inl {| status_code := 401;
            detail := "Invalid Google token: " ++ exn_str e |},
     coll, [verify_call]).
Proof.
  intros Hv. open_handler. rewrite bool_decide_eq_false_2 by done.
  exec. rewrite Hv. reflexivity.
Qed.

Section Verified.

Variable idinfo : gmap string value.
Hypothesis verified :
  verify_oauth2_token o (credential payload) (GOOGLE_CLIENT_ID cfg)
  = inr idinfo.

Lemma serve_wrong_issuer :
  py_in (get idinfo "iss") accepted_issuers = false →
  serve cfg (Some db) o payload coll
  = (inl {| status_code := 401;
            detail := "Invalid Google token: Wrong issuer." |},
     coll, [verify_call]).
Proof.
  intros Hi. open_handler. rewrite bool_decide_eq_false_2 by done.
  exec. rewrite verified, Hi. reflexivity.
Qed.

Hypothesis issuer_ok : py_in (get idinfo "iss") accepted_issuers = true.

Lemma serve_no_email :
  truthy (get idinfo "email") = false →
  serve cfg (Some db) o payload coll
  = (inl {| status_code := 401;
            detail := "Invalid Google token: No email in Google token" |},
     coll, [verify_call]).
Proof.
  intros He. open_handler. rewrite bool_decide_eq_false_2 by done.
  exec. rewrite verified, issuer_ok. exec. rewrite He. reflexivity.
Qed.

Hypothesis has_email : truthy (get idinfo "email") = true.

(** The store cannot be reached for the write. *)
Lemma serve_write_unreachable e :
  update_one_fault o = Some e →
  serve cfg (Some db) o payload coll
  = (inl {| status_code := 401;
            detail := "Invalid Google token: " ++ exn_str e |},
     coll, [verify_call; Call Utcnow; update_call idinfo]).
Proof.
  intros Hf. open_handler. rewrite bool_decide_eq_false_2 by done.
  exec. rewrite verified, issuer_ok. exec. rewrite has_email. exec.
  rewrite Hf. reflexivity.
Qed.

(** The store rejects the write. *)
Lemma serve_write_rejected e :
  update_one_fault o = None →
  Mongo.update_one (by_email (get idinfo "email"))
    (set_fields idinfo (utcnow o 0))
    {[ "created_at" := VDatetime (utcnow o 0) ]} true
    (new_ObjectId o) coll = inl e →
  serve cfg (Some db) o payload coll
  = (inl {| status_code := 401;
            detail := "Invalid Google token: " ++ exn_str e |},
     coll, [verify_call; Call Utcnow; update_call idinfo]).
Proof.
  intros Hf Hu. open_handler. rewrite bool_decide_eq_false_2 by done.
  exec. rewrite verified, issuer_ok. exec. rewrite has_email. exec.
  rewrite Hf. unfold by_email, set_fields in Hu. rewrite Hu. reflexivity.
Qed.

(** The write went through and the store cannot be reached for the
    read that follows. *)
Lemma serve_read_unreachable coll' e :
  update_one_fault o = None →
  Mongo.update_one (by_email (get idinfo "email"))
    (set_fields idinfo (utcnow o 0))
    {[ "created_at" := VDatetime (utcnow o 0) ]} true
    (new_ObjectId o) coll = inr coll' →
  find_one_fault o = Some e →
  serve cfg (Some db) o payload coll
  = (inl {| status_code := 401;
            detail := "Invalid Google token: " ++ exn_str e |},
     coll',
     [verify_call; Call Utcnow; update_call idinfo; find_call idinfo]).
Proof.
  intros Hf Hu Hr. open_handler. rewrite bool_decide_eq_false_2 by done.
  exec. rewrite verified, issuer_ok. exec. rewrite has_email. exec.
  rewrite Hf. unfold by_email, set_fields in Hu. rewrite Hu. exec.
  rewrite Hr. reflexivity.
Qed.

End Verified.

End Configured.

(** Everything that holds of a request that was answered with a token. *)
Lemma serve_issued db a :
  response_of cfg db o payload coll = inr a →
  ∃ idinfo d tok,
    is_Some db ∧ credential payload ≠ ""
    ∧ verify_oauth2_token o (credential payload) (GOOGLE_CLIENT_ID cfg)
      = inr idinfo
    ∧ py_in (get idinfo "iss") accepted_issuers = true
    ∧ truthy (get idinfo "email") = true
    ∧ update_one_fault o = None
    ∧ Mongo.update_one (by_email (get idinfo "email"))
        (set_fields idinfo (utcnow o 0))
        {[ "created_at" := VDatetime (utcnow o 0) ]} true
        (new_ObjectId o) coll = inr (store_after cfg db o payload coll)
    ∧ find_one_fault o = None
    ∧ Mongo.find_one (by_email (get idinfo "email"))
        (store_after cfg db o payload coll) = Some d
    ∧ jwt_encode o
        (token_claims (Py.str (get d "_id")) (get idinfo "email")
           (utcnow o 1 + JWT_EXPIRES_MIN cfg * us_per_minute))
        (JWT_SECRET cfg) JWT_ALG = inr tok
    ∧ a = {| token := tok; user := user_view (Py.str (get d "_id")) idinfo |}
    ∧ calls_of cfg db o payload coll
      = [verify_call; Call Utcnow; update_call idinfo; find_call idinfo;
         Call Utcnow;
         Call (JwtEncode
                 (token_claims (Py.str (get d "_id")) (get idinfo "email")
                    (utcnow o 1 + JWT_EXPIRES_MIN cfg * us_per_minute))
                 (JWT_SECRET cfg) JWT_ALG)].
Proof.
  open_handler. destruct db as [db'|]; [|discriminate].
  case_bool_decide as Hc; [discriminate|].
  exec.
  destruct (verify_oauth2_token o _ _) as [e|idinfo] eqn:Hv; [discriminate|].
  destruct (py_in (get idinfo "iss") accepted_issuers) eqn:Hi;
    [|discriminate].
  exec. destruct (truthy (get idinfo "email")) eqn:He; [|discriminate].
  exec. destruct (update_one_fault o) eqn:Hf; [discriminate|].
  destruct (Mongo.update_one _ _ _ _ _ _) as [e|coll'] eqn:Hu; [discriminate|].
  exec. destruct (find_one_fault o) eqn:Hr; [discriminate|].
  destruct (Mongo.find_one _ coll') as [d|] eqn:Hd; [|discriminate].
  exec.
  destruct (timedelta_minutes _) as [e|delta] eqn:Ht; [discriminate|].
  apply timedelta_minutes_inr in Ht as ->.
  destruct (datetime_add _ _) as [e|exp] eqn:Ha; [discriminate|].
  apply datetime_add_inr in Ha as ->.
  exec. destruct (jwt_encode o _ _ _) as [e|tok] eqn:Hj; [discriminate|].
  exec. intros [= <-].
  exists idinfo, d, tok. repeat split; done.
Qed.

End Trace.

(** ** What one successful request does to the collection *)

Lemma user_view_lookup user_id idinfo :
  let u := user_view user_id idinfo in
  u !! "id" = Some (VStr user_id)
  ∧ u !! "email" = Some (get idinfo "email")
  ∧ u !! "name" = Some (get idinfo "name")
  ∧ u !! "picture" = Some (get idinfo "picture")
  ∧ u !! "provider" = Some (VStr "google").
Proof. unfold user_view. cbv zeta. repeat split; by simplify_map_eq. Qed.

Lemma matches_set_union idinfo now d :
  Mongo.matches (by_email (get idinfo "email")) (set_fields idinfo now ∪ d) = true.
Proof.
  rewrite matches_by_email. apply bool_decide_eq_true_2.
  apply set_union_written, set_fields_lookup.
Qed.

Lemma matches_new_record idinfo now oid :
  Mongo.matches (by_email (get idinfo "email")) (new_record idinfo now oid) = true.
Proof.
  rewrite matches_by_email. apply bool_decide_eq_true_2. unfold get.
  destruct (new_record_lookup idinfo now oid) as (_ & -> & _). done.
Qed.

Lemma authenticated_asb_true email r :
  authenticated_asb email r = true → authenticated_as email r.
Proof.
  destruct r as [h|a]; simpl; [discriminate|]. apply bool_decide_eq_true_1.
Qed.

Lemma Forall_of_forallb {A} (P : A → Prop) (f : A → bool) :
  (∀ x, f x = true → P x) → ∀ l, forallb f l = true → Forall P l.
Proof.
  intros Hf l. induction l as [|x l IH]; simpl; [constructor|].
  intros [Hx Hl]%andb_true_iff. constructor; auto.
Qed.

(** A request answered with a token either created the record for its
    email, at the end of the collection, or rewrote the first existing
    record for that email where it stood. *)
Lemma issued_step cfg db o payload coll a :
  response_of cfg db o payload coll = inr a →
  ∃ idinfo,
    verify_oauth2_token o (credential payload) (GOOGLE_CLIENT_ID cfg) = inr idinfo
    ∧ truthy (get idinfo "email") = true
    ∧ user a = user_view (Py.str (get (default ∅
                 (Mongo.find_one (by_email (get idinfo "email"))
                    (store_after cfg db o payload coll))) "_id")) idinfo
    ∧ ((records_for (get idinfo "email") coll = []
        ∧ store_after cfg db o payload coll
          = (coll ++ [new_record idinfo (utcnow o 0) (new_ObjectId o)])%list
        ∧ Mongo.find_one (by_email (get idinfo "email"))
            (store_after cfg db o payload coll)
          = Some (new_record idinfo (utcnow o 0) (new_ObjectId o)))
       ∨ (∃ coll1 d coll2,
            coll = (coll1 ++ d :: coll2)%list
            ∧ records_for (get idinfo "email") coll1 = []
            ∧ Mongo.matches (by_email (get idinfo "email")) d = true
            ∧ store_after cfg db o payload coll
              = (coll1 ++ (set_fields idinfo (utcnow o 0) ∪ d) :: coll2)%list
            ∧ Mongo.find_one (by_email (get idinfo "email"))
                (store_after cfg db o payload coll)
              = Some (set_fields idinfo (utcnow o 0) ∪ d))).
Proof.
  intros H.
  destruct (serve_issued _ _ _ _ _ _ H)
    as (idinfo & d & tok & _ & _ & Hv & _ & He & _ & Hu & _ & Hd & _ & -> & _).
  exists idinfo. split; [done|]. split; [done|].
  split; [by rewrite Hd|].
  destruct (first_match_split (by_email (get idinfo "email")) coll)
    as [Hnone | (c1 & d0 & c2 & -> & H1 & Hm)].
  - left. split; [done|].
    rewrite update_one_insert in Hu by done.
    destruct (Mongo.has_id _ _); [discriminate|].
    injection Hu as Hu. fold (new_record idinfo (utcnow o 0) (new_ObjectId o)) in Hu.
    rewrite <- Hu. split; [done|].
    apply find_one_hit; [done | apply matches_new_record].
  - right. exists c1, d0, c2. split; [done|]. split; [done|]. split; [done|].
    rewrite update_one_modify in Hu by done. injection Hu as Hu.
    rewrite <- Hu. split; [done|].
    apply find_one_hit; [done | apply matches_set_union].
Qed.

Ltac failed :=
  exec; intros [= <-];
  first [ by eexists | eexists (Exception EmptyString _); reflexivity ].

(** Once the store is configured and a credential is present, every
    failure is the one response of the [except] clause. *)
Lemma serve_failed cfg db o payload coll h :
  credential payload ≠ "" →
  response_of cfg (Some db) o payload coll = inl h →
  ∃ e, h = {| status_code := 401;
              detail := "Invalid Google token: " ++ exn_str e |}.
Proof.
  intros Hc. open_handler. rewrite bool_decide_eq_false_2 by done. exec.
  destruct (verify_oauth2_token o _ _) as [e|idinfo];
    [failed|].
  destruct (py_in _ _); [|failed].
  exec. destruct (truthy _); [|failed].
  exec. destruct (update_one_fault o); [failed|].
  destruct (Mongo.update_one _ _ _ _ _ _); [failed|].
  exec. destruct (find_one_fault o); [failed|].
  destruct (Mongo.find_one _ _); [|failed].
  exec. destruct (timedelta_minutes _); [failed|].
  destruct (datetime_add _ _); [failed|].
  exec. destruct (jwt_encode o _ _ _); [failed|].
  discriminate.
Qed.

(** * The claims *)

(** ** Failures *)

(** C9.  The database-configured check runs before the credential check:
    while the database handle is unconfigured every request, an empty
    credential included, gets the server error "Database not configured",
    no external call is made, and the missing-credential response is not
    produced. *)
Theorem database_check_precedes_credential_check
    (cfg : settings) (o : oracle) (payload : GoogleCredential)
    (coll : list (gmap string value)) :
  serve cfg None o payload coll
  = (inl {| status_code := 500; detail := "Database not configured" |}, coll, [])
  ∧ response_of cfg None o {| credential := "" |} coll
    = inl {| status_code := 500; detail := "Database not configured" |}
  ∧ is_server_error 500
  ∧ ∀ h, response_of cfg None o payload coll = inl h →
         status_code h ≠ missing_credential_status
         ∧ detail h ≠ "Missing credential".
Proof.
  split; [reflexivity|]. split; [reflexivity|].
  split; [unfold is_server_error; lia|].
  intros h [= <-]. split; [discriminate | discriminate].
Qed.

(** C6, as stated, fails: with the database unconfigured an empty
    credential is answered with the server error, not with the
    missing-credential response. *)
Lemma empty_credential_unconfigured_counterexample :
  ¬ (∀ (cfg : settings) (db : option Database) (o : oracle)
       (payload : GoogleCredential) (coll : list (gmap string value)),
       credential payload = "" →
       response_of cfg db o payload coll
       = inl {| status_code := 400; detail := "Missing credential" |}).
Proof.
  intros H.
  specialize (H Scenario.cfg None Scenario.first {| credential := "" |} [] eq_refl).
  discriminate H.
Qed.

(** C6, amended.  For every request whose credential string is empty,
    made while the database is configured, the flow fails at once with
    the missing-credential response: status 400, which differs from the
    status 401 of every verification failure, with the collection
    untouched and without any external call, so before any verification
    work. *)
Theorem empty_credential_rejected_before_verification
    (cfg : settings) (db : Database) (o : oracle) (payload : GoogleCredential)
    (coll : list (gmap string value)) :
  credential payload = "" →
  serve cfg (Some db) o payload coll
  = (inl {| status_code := 400; detail := "Missing credential" |}, coll, [])
  ∧ ∀ o' payload' coll' h,
      credential payload' ≠ "" →
      response_of cfg (Some db) o' payload' coll' = inl h →
      status_code h = verification_failure_status ∧ status_code h ≠ 400.
Proof.
  intros H. split; [by apply serve_empty_credential|].
  intros o' payload' coll' h Hc Hr.
  destruct (serve_failed _ _ _ _ _ _ Hc Hr) as [e ->]. done.
Qed.

Lemma empty_credential_rejected_witness :
  credential {| credential := "" |} = ""
  ∧ serve Scenario.cfg (Some MongoDatabase) Scenario.first
      {| credential := "" |} []
    = (inl {| status_code := 400; detail := "Missing credential" |}, [], []).
Proof.
  split; [reflexivity|].
  apply (empty_credential_rejected_before_verification
           Scenario.cfg MongoDatabase Scenario.first {| credential := "" |} []).
  reflexivity.
Defined.

(** C7.  A credential that the verifier accepts (signature and audience)
    and whose issuer is accepted, but whose email claim is missing or
    empty, fails with "No email in Google token" under the status of a
    verification failure; the only external call is the verification, so
    no record is written, and no token is issued. *)
Theorem missing_email_is_verification_failure
    (cfg : settings) (db : Database) (o : oracle) (payload : GoogleCredential)
    (coll : list (gmap string value)) (idinfo : gmap string value) :
  credential payload ≠ "" →
  verify_oauth2_token o (credential payload) (GOOGLE_CLIENT_ID cfg) = inr idinfo →
  py_in (get idinfo "iss") accepted_issuers = true →
  truthy (get idinfo "email") = false →
  response_of cfg (Some db) o payload coll
  = inl {| status_code := verification_failure_status;
           detail := "Invalid Google token: No email in Google token" |}
  ∧ store_after cfg (Some db) o payload coll = coll
  ∧ existsb is_store_call (calls_of cfg (Some db) o payload coll) = false
  ∧ existsb is_jwt_encode (calls_of cfg (Some db) o payload coll) = false.
Proof.
  intros Hc Hv Hi He. unfold response_of, store_after, calls_of.
  rewrite (serve_no_email cfg o payload coll db Hc idinfo Hv Hi He).
  done.
Qed.

Lemma missing_email_witness :
  response_of Scenario.cfg (Some MongoDatabase) Forged.no_email Scenario.cred []
  = inl {| status_code := 401;
           detail := "Invalid Google token: No email in Google token" |}
  ∧ store_after Scenario.cfg (Some MongoDatabase) Forged.no_email Scenario.cred []
    = [].
Proof.
  destruct (missing_email_is_verification_failure
              Scenario.cfg MongoDatabase Forged.no_email Scenario.cred []
              (delete "email" (Scenario.alice (VStr "Alice"))))
    as (H1 & H2 & _); [discriminate | reflexivity | reflexivity | reflexivity|].
  split; [exact H1 | exact H2].
Defined.

(** The collection changes only through a write that went through. *)
Lemma store_after_cases cfg db o payload coll :
  store_after cfg db o payload coll = coll
  ∨ (update_one_fault o = None
     ∧ ∃ idinfo,
         verify_oauth2_token o (credential payload) (GOOGLE_CLIENT_ID cfg)
         = inr idinfo
         ∧ Mongo.update_one (by_email (get idinfo "email"))
             (set_fields idinfo (utcnow o 0))
             {[ "created_at" := VDatetime (utcnow o 0) ]} true
             (new_ObjectId o) coll
           = inr (store_after cfg db o payload coll)).
Proof.
  open_handler. destruct db as [db'|]; [|by left].
  case_bool_decide; [by left|]. exec.
  destruct (verify_oauth2_token o _ _) as [e|idinfo] eqn:Hv; [by left|].
  destruct (py_in _ _); [|by left].
  exec. destruct (truthy _); [|by left].
  exec. destruct (update_one_fault o) eqn:Hf; [by left|].
  destruct (Mongo.update_one _ _ _ _ _ _) as [e|coll'] eqn:Hu; [by left|].
  right. split; [done|]. exists idinfo. split; [done|].
  unfold by_email, set_fields. rewrite Hu. f_equal.
  exec. destruct (find_one_fault o); [done|].
  destruct (Mongo.find_one _ _); [|done].
  exec. destruct (timedelta_minutes _); [done|].
  destruct (datetime_add _ _); [done|].
  exec. by destruct (jwt_encode o _ _ _).
Qed.

(** C5, as stated, fails: a credential whose issuer is not accepted and
    whose signature the verifier refuses is turned down with the
    verifier's reason, not with "Wrong issuer."; the issuer is examined
    only in the claims the verifier returns. *)
Lemma wrong_issuer_bad_signature_counterexample :
  ¬ (∀ (cfg : settings) (db : Database) (o : oracle)
       (payload : GoogleCredential) (coll : list (gmap string value))
       (iss : value),
       credential payload ≠ "" →
       (∀ idinfo,
          verify_oauth2_token o (credential payload) (GOOGLE_CLIENT_ID cfg)
          = inr idinfo → get idinfo "iss" = iss) →
       py_in iss accepted_issuers = false →
       response_of cfg (Some db) o payload coll
       = inl {| status_code := 401;
                detail := "Invalid Google token: Wrong issuer." |}).
Proof.
  intros H.
  specialize (H Scenario.cfg MongoDatabase Forged.refused Scenario.cred []
                (VStr "evil.com")).
  assert (Hr : response_of Scenario.cfg (Some MongoDatabase) Forged.refused
                 Scenario.cred []
               = inl {| status_code := 401;
                        detail := "Invalid Google token: Could not verify token signature." |})
    by reflexivity.
  rewrite Hr in H.
  assert (Hne : credential Scenario.cred ≠ "") by discriminate.
  assert (Hiss : ∀ idinfo,
            verify_oauth2_token Forged.refused (credential Scenario.cred)
              (GOOGLE_CLIENT_ID Scenario.cfg) = inr idinfo →
            get idinfo "iss" = VStr "evil.com") by (intros idinfo [=]).
  specialize (H Hne Hiss eq_refl). discriminate H.
Qed.

(** C5, amended.  While the store is configured and a credential is
    present: a credential that the verifier accepts and whose issuer
    claim is not one of the two accepted strings fails with the reason
    "Wrong issuer."; a credential that the verifier itself refuses (a bad
    signature, say) fails with the verifier's reason.  Either way the
    response is the single verification failure, status 401, the only
    external call is the verification, and the collection is untouched. *)
Theorem wrong_issuer_rejected
    (cfg : settings) (db : Database) (o : oracle) (payload : GoogleCredential)
    (coll : list (gmap string value)) :
  credential payload ≠ "" →
  (∀ idinfo,
     verify_oauth2_token o (credential payload) (GOOGLE_CLIENT_ID cfg)
     = inr idinfo →
     py_in (get idinfo "iss") accepted_issuers = false →
     serve cfg (Some db) o payload coll
     = (inl {| status_code := verification_failure_status;
               detail := "Invalid Google token: Wrong issuer." |},
        coll,
        [Call (VerifyOauth2Token (credential payload) (GOOGLE_CLIENT_ID cfg))]))
  ∧ (∀ e,
       verify_oauth2_token o (credential payload) (GOOGLE_CLIENT_ID cfg)
       = inl e →
       serve cfg (Some db) o payload coll
       = (inl {| status_code := verification_failure_status;
                 detail := "Invalid Google token: " ++ exn_str e |},
          coll,
          [Call (VerifyOauth2Token (credential payload) (GOOGLE_CLIENT_ID cfg))]))
  ∧ (∀ v, py_in v accepted_issuers = true
          ↔ v = VStr "accounts.google.com" ∨ v = VStr "https://accounts.google.com").
Proof.
  intros Hc. split; [|split].
  - intros idinfo Hv Hi. by eapply serve_wrong_issuer.
  - intros e Hv. by apply serve_rejected.
  - intros v. unfold py_in, accepted_issuers. simpl.
    rewrite orb_false_r, orb_true_iff, !bool_decide_eq_true.
    split; intros [H|H]; auto.
Qed.

Lemma wrong_issuer_witness :
  credential Scenario.cred ≠ ""
  ∧ serve Scenario.cfg (Some MongoDatabase) Forged.accepted Scenario.cred []
    = (inl {| status_code := 401;
              detail := "Invalid Google token: Wrong issuer." |},
       [],
       [Call (VerifyOauth2Token "header.payload.sig" (Some "client-1"))]).
Proof.
  assert (Hc : credential Scenario.cred ≠ "") by discriminate.
  split; [exact Hc|].
  destruct (wrong_issuer_rejected Scenario.cfg MongoDatabase Forged.accepted
              Scenario.cred [] Hc) as (H & _).
  apply (H Forged.evil); reflexivity.
Defined.

(** C4, as stated, fails: when the store is lost between the write and
    the read, the answer has the status of a verification failure, not a
    server error, and the record written stays. *)
Lemma store_lost_before_read_counterexample :
  ¬ (∀ (cfg : settings) (db : option Database) (o : oracle)
       (payload : GoogleCredential) (coll : list (gmap string value))
       (idinfo : gmap string value),
       credential payload ≠ "" →
       verify_oauth2_token o (credential payload) (GOOGLE_CLIENT_ID cfg)
       = inr idinfo →
       py_in (get idinfo "iss") accepted_issuers = true →
       truthy (get idinfo "email") = true →
       db = None ∨ is_Some (update_one_fault o) ∨ is_Some (find_one_fault o) →
       ∃ h, response_of cfg db o payload coll = inl h
            ∧ is_server_error (status_code h)
            ∧ status_code h ≠ verification_failure_status
            ∧ store_after cfg db o payload coll = coll).
Proof.
  intros H.
  destruct (H Scenario.cfg (Some MongoDatabase) Outage.lost_before_read
              Scenario.cred [] (Scenario.alice (VStr "Alice")))
    as (h & Hr & [Hs _] & _).
  - discriminate.
  - reflexivity.
  - reflexivity.
  - reflexivity.
  - right. right. by eexists.
  - assert (Hh : response_of Scenario.cfg (Some MongoDatabase)
                   Outage.lost_before_read Scenario.cred []
                 = inl {| status_code := 401;
                          detail := "Invalid Google token: localhost:27017: timed out" |})
      by reflexivity.
    rewrite Hh in Hr. injection Hr as <-. simpl in Hs. lia.
Qed.

(** What the outage between write and read leaves behind. *)
Example store_lost_before_read_trace :
  response_of Scenario.cfg (Some MongoDatabase) Outage.lost_before_read
    Scenario.cred []
  = inl {| status_code := 401;
           detail := "Invalid Google token: localhost:27017: timed out" |}
  ∧ store_after Scenario.cfg (Some MongoDatabase) Outage.lost_before_read
      Scenario.cred []
    = [new_record (Scenario.alice (VStr "Alice")) Scenario.t0 255].
Proof. split; reflexivity. Qed.

(** An outage before the write is answered the same way and leaves the
    collection as it was. *)
Example store_lost_before_write_trace :
  serve Scenario.cfg (Some MongoDatabase) Outage.lost_before_write
    Scenario.cred []
  = (inl {| status_code := 401;
            detail := "Invalid Google token: localhost:27017: timed out" |},
     [],
     [Call (VerifyOauth2Token "header.payload.sig" (Some "client-1"));
      Call Utcnow;
      Call (UpdateOne (by_email (VStr "alice@example.com"))
              (set_fields (Scenario.alice (VStr "Alice")) Scenario.t0)
              {[ "created_at" := VDatetime Scenario.t0 ]} true)]).
Proof. vm_compute. reflexivity. Qed.

(** C4, amended.  With the database unconfigured the request fails with
    the server error 500, distinct from the status of a verification
    failure, without a token and without touching the collection.  When
    the store cannot be reached for the write, the request fails without
    a token and nothing is written; when it is lost after the write, the
    request fails without a token and the upserted record stays.  A token
    is only ever returned together with a stored record for its email. *)
Theorem store_unavailable_issues_no_token
    (cfg : settings) (db : option Database) (o : oracle)
    (payload : GoogleCredential) (coll : list (gmap string value)) :
  (db = None →
     serve cfg db o payload coll
     = (inl {| status_code := 500; detail := "Database not configured" |},
        coll, [])
     ∧ is_server_error 500 ∧ 500 ≠ verification_failure_status)
  ∧ (is_Some (update_one_fault o) →
       (∃ h, response_of cfg db o payload coll = inl h)
       ∧ store_after cfg db o payload coll = coll)
  ∧ (is_Some (find_one_fault o) →
       (∃ h, response_of cfg db o payload coll = inl h)
       ∧ ∀ db' idinfo coll',
           db = Some db' → credential payload ≠ "" →
           verify_oauth2_token o (credential payload) (GOOGLE_CLIENT_ID cfg)
           = inr idinfo →
           py_in (get idinfo "iss") accepted_issuers = true →
           truthy (get idinfo "email") = true →
           update_one_fault o = None →
           Mongo.update_one (by_email (get idinfo "email"))
             (set_fields idinfo (utcnow o 0))
             {[ "created_at" := VDatetime (utcnow o 0) ]} true
             (new_ObjectId o) coll = inr coll' →
           store_after cfg db o payload coll = coll')
  ∧ (∀ a, response_of cfg db o payload coll = inr a →
          ∃ d, Mongo.find_one (by_email (get (user a) "email"))
                 (store_after cfg db o payload coll) = Some d
               ∧ d ∈ store_after cfg db o payload coll).
Proof.
  split; [|split; [|split]].
  - intros ->. split; [reflexivity|]. unfold is_server_error.
    split; [lia | discriminate].
  - intros [e He]. split.
    + destruct (response_of cfg db o payload coll) as [h|a] eqn:Hr; [by eexists|].
      destruct (serve_issued _ _ _ _ _ _ Hr)
        as (? & ? & ? & _ & _ & _ & _ & _ & Hf & _). congruence.
    + destruct (store_after_cases cfg db o payload coll) as [H | [Hf _]];
        [done | congruence].
  - intros [e He]. split.
    + destruct (response_of cfg db o payload coll) as [h|a] eqn:Hr; [by eexists|].
      destruct (serve_issued _ _ _ _ _ _ Hr)
        as (? & ? & ? & _ & _ & _ & _ & _ & _ & _ & Hf & _). congruence.
    + intros db' idinfo coll' -> Hc Hv Hi Hm Hf Hu. unfold store_after.
      by rewrite (serve_read_unreachable cfg o payload coll db' Hc idinfo
                    Hv Hi Hm coll' e Hf Hu He).
  - intros a Hr.
    destruct (serve_issued _ _ _ _ _ _ Hr)
      as (idinfo & d & tok & _ & _ & _ & _ & _ & _ & _ & _ & Hd & _ & -> & _).
    exists d. simpl.
    destruct (user_view_lookup (Py.str (get d "_id")) idinfo) as (_ & Hem & _).
    unfold get at 1. rewrite Hem. simpl. split; [done|].
    by apply find_one_matches in Hd as [_ ?].
Qed.

(** ** Successful authentications *)

Lemma dom_token_claims user_id email exp :
  dom (token_claims user_id email exp) = {[ "sub"; "email"; "exp" ]}.
Proof.
  unfold token_claims. rewrite !dom_insert_L, dom_singleton_L. set_solver.
Qed.

Lemma dom_user_view user_id idinfo :
  dom (user_view user_id idinfo) = list_to_set UserOut_fields.
Proof.
  unfold user_view, UserOut_fields.
  rewrite !dom_insert_L, dom_singleton_L. simpl. set_solver.
Qed.

(** C2.  For every successful authentication the token is the encoding,
    under the process-wide secret and the fixed algorithm HS256, of a
    claims set whose keys are exactly sub, email and exp; sub is the
    printed [_id] of the record the store holds for the email after the
    upsert (the provider's subject goes to that record's [google_sub]
    field and nowhere into the token), and email is the verified email.
    The request calls the encoder once, with these arguments. *)
Theorem token_claims_are_sub_email_exp
    (cfg : settings) (db : option Database) (o : oracle)
    (payload : GoogleCredential) (coll : list (gmap string value))
    (a : AuthResponse) :
  response_of cfg db o payload coll = inr a →
  ∃ idinfo doc claims,
    verify_oauth2_token o (credential payload) (GOOGLE_CLIENT_ID cfg)
    = inr idinfo
    ∧ Mongo.find_one (by_email (get idinfo "email"))
        (store_after cfg db o payload coll) = Some doc
    ∧ get doc "google_sub" = get idinfo "sub"
    ∧ jwt_encode o claims (JWT_SECRET cfg) "HS256" = inr (token a)
    ∧ dom claims = {[ "sub"; "email"; "exp" ]}
    ∧ claims !! "sub" = Some (VStr (Py.str (get doc "_id")))
    ∧ claims !! "email" = Some (get idinfo "email")
    ∧ List.filter is_jwt_encode (calls_of cfg db o payload coll)
      = [Call (JwtEncode claims (JWT_SECRET cfg) "HS256")]
    ∧ JWT_ALG = "HS256"
    ∧ ∀ getenv, module_globals getenv = inr cfg →
        JWT_SECRET cfg = default "dev-secret-change-me" (getenv "JWT_SECRET").
Proof.
  intros Hr.
  destruct (serve_issued _ _ _ _ _ _ Hr)
    as (idinfo & d & tok & _ & _ & Hv & _ & _ & _ & _ & _ & Hd & Hj & -> & Hcalls).
  destruct (issued_step _ _ _ _ _ _ Hr)
    as (idinfo' & Hv' & _ & _ & Hstep).
  assert (idinfo' = idinfo) as -> by congruence.
  exists idinfo, d, (token_claims (Py.str (get d "_id")) (get idinfo "email")
                       (utcnow o 1 + JWT_EXPIRES_MIN cfg * us_per_minute)).
  split; [done|]. split; [done|]. split.
  { destruct Hstep as [(_ & _ & Hf) | (c1 & d0 & c2 & _ & _ & _ & _ & Hf)];
      rewrite Hf in Hd; injection Hd as <-.
    - unfold get at 1.
      by destruct (new_record_lookup idinfo (utcnow o 0) (new_ObjectId o))
        as (_ & _ & _ & _ & _ & -> & _).
    - apply set_union_written, set_fields_lookup. }
  split; [exact Hj|]. split; [apply dom_token_claims|].
  split; [unfold token_claims; by simplify_map_eq|].
  split; [unfold token_claims; by simplify_map_eq|].
  split; [by rewrite Hcalls|]. split; [reflexivity|].
  intros getenv Hg. unfold module_globals in Hg.
  destruct (Py.int _); [discriminate|]. by injection Hg as <-.
Qed.

(** The first sign-in of the scenario, evaluated. *)
Lemma first_sign_in_response :
  response_of Scenario.cfg (Some MongoDatabase) Scenario.first Scenario.cred []
  = inr {| token := "0000000000000000000000ff.dev-secret-change-me.HS256";
           user := user_view "0000000000000000000000ff"
                     (Scenario.alice (VStr "Alice")) |}.
Proof. vm_compute. reflexivity. Qed.

Lemma first_sign_in_record :
  Mongo.find_one (by_email (get (Scenario.alice (VStr "Alice")) "email"))
    (store_after Scenario.cfg (Some MongoDatabase) Scenario.first Scenario.cred [])
  = Some (new_record (Scenario.alice (VStr "Alice")) Scenario.t0 255).
Proof. vm_compute. reflexivity. Qed.

Lemma token_claims_witness :
  ∃ claims,
    Scenario.toy_encode claims "dev-secret-change-me" "HS256"
    = inr "0000000000000000000000ff.dev-secret-change-me.HS256"
    ∧ dom claims = {[ "sub"; "email"; "exp" ]}
    ∧ claims !! "sub" = Some (VStr "0000000000000000000000ff")
    ∧ claims !! "email" = Some (VStr "alice@example.com").
Proof.
  destruct (token_claims_are_sub_email_exp _ _ _ _ _ _ first_sign_in_response)
    as (idinfo & doc & claims & Hv & Hd & _ & Hj & Hdom & Hsub & Hem & _).
  injection Hv as <-.
  rewrite first_sign_in_record in Hd. injection Hd as <-.
  exists claims. split; [exact Hj|]. split; [exact Hdom|].
  split; [exact Hsub | exact Hem].
Defined.

(** The expiry claim of one successful request. *)
Lemma issued_expiry cfg db o payload coll a :
  response_of cfg db o payload coll = inr a →
  ∃ claims,
    jwt_encode o claims (JWT_SECRET cfg) JWT_ALG = inr (token a)
    ∧ claims !! "exp"
      = Some (VDatetime (utcnow o 1 + JWT_EXPIRES_MIN cfg * us_per_minute))
    ∧ ∃ before,
        calls_of cfg db o payload coll
        = (before ++ [Call Utcnow;
                      Call (JwtEncode claims (JWT_SECRET cfg) JWT_ALG)])%list
        ∧ length (List.filter is_utcnow before) = 1%nat.
Proof.
  intros Hr.
  destruct (serve_issued _ _ _ _ _ _ Hr)
    as (idinfo & d & tok & _ & _ & _ & _ & _ & _ & _ & _ & _ & Hj & -> & Hcalls).
  eexists. split; [exact Hj|].
  split; [unfold token_claims; by simplify_map_eq|].
  eexists [_; _; _; _]. split; [exact Hcalls | reflexivity].
Qed.


(** C8.  The user view of every successful authentication has exactly
    the fields of [UserOut]: id, email, name, picture and provider.  id
    is the printed [_id] of the stored record, email the verified email,
    name and picture the verified claims or [None] when the credential
    has none, provider the constant "google"; neither the provider's
    subject nor the store's [_id] field is among the keys. *)
Theorem user_view_exposes_public_fields
    (cfg : settings) (db : option Database) (o : oracle)
    (payload : GoogleCredential) (coll : list (gmap string value))
    (a : AuthResponse) :
  response_of cfg db o payload coll = inr a →
  ∃ idinfo doc,
    verify_oauth2_token o (credential payload) (GOOGLE_CLIENT_ID cfg)
    = inr idinfo
    ∧ Mongo.find_one (by_email (get idinfo "email"))
        (store_after cfg db o payload coll) = Some doc
    ∧ dom (user a) = list_to_set UserOut_fields
    ∧ user a !! "id" = Some (VStr (Py.str (get doc "_id")))
    ∧ user a !! "email" = Some (get idinfo "email")
    ∧ user a !! "name" = Some (get idinfo "name")
    ∧ user a !! "picture" = Some (get idinfo "picture")
    ∧ user a !! "provider" = Some (VStr "google")
    ∧ (idinfo !! "name" = None → user a !! "name" = Some VNone)
    ∧ (idinfo !! "picture" = None → user a !! "picture" = Some VNone)
    ∧ user a !! "google_sub" = None ∧ user a !! "sub" = None
    ∧ user a !! "_id" = None.
Proof.
  intros Hr.
  destruct (serve_issued _ _ _ _ _ _ Hr)
    as (idinfo & d & tok & _ & _ & Hv & _ & _ & _ & _ & _ & Hd & _ & -> & _).
  exists idinfo, d. simpl.
  destruct (user_view_lookup (Py.str (get d "_id")) idinfo)
    as (H1 & H2 & H3 & H4 & H5).
  split; [done|]. split; [done|]. split; [apply dom_user_view|].
  split; [done|]. split; [done|]. split; [done|]. split; [done|].
  split; [done|].
  split; [intros Hn; rewrite H3; unfold get; by rewrite Hn|].
  split; [intros Hn; rewrite H4; unfold get; by rewrite Hn|].
  repeat split; apply not_elem_of_dom; rewrite dom_user_view;
    unfold UserOut_fields; simpl; set_solver.
Qed.

Lemma user_view_witness :
  dom (user_view "0000000000000000000000ff" (Scenario.alice (VStr "Alice")))
  = list_to_set UserOut_fields
  ∧ user_view "0000000000000000000000ff" (Scenario.alice (VStr "Alice"))
      !! "provider" = Some (VStr "google").
Proof.
  destruct (user_view_exposes_public_fields _ _ _ _ _ _ first_sign_in_response)
    as (idinfo & doc & _ & _ & Hdom & _ & _ & _ & _ & Hp & _).
  split; [exact Hdom | exact Hp].
Defined.

Example first_sign_in_mints_at_second_reading :
  last (calls_of Scenario.cfg (Some MongoDatabase) Scenario.first Scenario.cred [])
  = Some (Call (JwtEncode
                  (token_claims "0000000000000000000000ff"
                     (VStr "alice@example.com")
                     (Scenario.t0 + 1 + 43200 * 60 * 1000000))
                  "dev-secret-change-me" "HS256")).
Proof. vm_compute. reflexivity. Qed.

(** ** The stored record *)

(** Of the fields of a user record, the upsert's [$set] leaves out the
    identifier and the created timestamp, and only these. *)
Lemma kept_fields :
  ("_id" ∉ written_fields) ∧ ("created_at" ∉ written_fields)
  ∧ user_record_fields ∖ written_fields = {[ "_id"; "created_at" ]}.
Proof.
  split; [|split].
  - apply (bool_decide_unpack _). vm_compute. exact I.
  - apply (bool_decide_unpack _). vm_compute. exact I.
  - vm_compute. reflexivity.
Qed.


(** The second sign-in of the scenario drops the name claim. *)
Lemma nameless_sign_in_response :
  response_of Scenario.cfg (Some MongoDatabase) Scenario.third Scenario.cred
    ([] ++ new_record (Scenario.alice (VStr "Alice")) Scenario.t0 255 :: [])%list
  = inr {| token := "0000000000000000000000ff.dev-secret-change-me.HS256";
           user := user_view "0000000000000000000000ff"
                     (delete "name" (Scenario.alice VNone)) |}.
Proof. vm_compute. reflexivity. Qed.


(** C1 needs the two ways a successful request meets the collection. *)

Lemma authenticated_email cfg db o payload coll email a idinfo :
  response_of cfg db o payload coll = inr a →
  verify_oauth2_token o (credential payload) (GOOGLE_CLIENT_ID cfg) = inr idinfo →
  authenticated_as email (inr a) → get idinfo "email" = email.
Proof.
  intros Hr Hv Ha.
  destruct (serve_issued _ _ _ _ _ _ Hr)
    as (idinfo' & d & tok & _ & _ & Hv' & _ & _ & _ & _ & _ & _ & _ & -> & _).
  assert (idinfo' = idinfo) as -> by congruence.
  simpl in Ha. unfold get in Ha at 1.
  destruct (user_view_lookup (Py.str (get d "_id")) idinfo) as (_ & He & _).
  by rewrite He in Ha.
Qed.

Lemma get_set_union_kept idinfo now d k :
  k ∉ written_fields → get (set_fields idinfo now ∪ d) k = get d k.
Proof. intros H. unfold get. by rewrite set_union_other. Qed.

(** The first sign-in for an email appends its record. *)
Lemma step_create cfg db o payload coll email :
  records_for email coll = [] →
  authenticated_as email (response_of cfg db o payload coll) →
  ∃ d a,
    response_of cfg db o payload coll = inr a
    ∧ store_after cfg db o payload coll = (coll ++ [d])%list
    ∧ get d "email" = email
    ∧ get d "_id" = VObjectId (new_ObjectId o)
    ∧ get d "created_at" = VDatetime (utcnow o 0)
    ∧ get d "updated_at" = VDatetime (utcnow o 0)
    ∧ get (user a) "id" = VStr (Py.str (VObjectId (new_ObjectId o))).
Proof.
  intros Hnone Ha.
  destruct (response_of cfg db o payload coll) as [h|a] eqn:Hr; [done|].
  destruct (serve_issued _ _ _ _ _ _ Hr)
    as (idinfo & d & tok & _ & _ & Hv & _ & _ & _ & Hu & _ & Hd & _ & Hres & _).
  pose proof (authenticated_email _ _ _ _ _ _ _ _ Hr Hv Ha) as He.
  subst email. unfold records_for in Hnone.
  rewrite update_one_insert in Hu by done.
  destruct (Mongo.has_id _ _); [discriminate|]. injection Hu as Hu.
  fold (new_record idinfo (utcnow o 0) (new_ObjectId o)) in Hu.
  rewrite <- Hu in Hd.
  rewrite find_one_hit in Hd; [|done | apply matches_new_record].
  injection Hd as <-.
  destruct (new_record_lookup idinfo (utcnow o 0) (new_ObjectId o))
    as (Hid & Hem & _ & _ & _ & _ & Hup & Hcr).
  exists (new_record idinfo (utcnow o 0) (new_ObjectId o)), a.
  split; [done|]. split; [done|].
  unfold get at 1 3 4 5. rewrite Hid, Hem, Hup, Hcr. simpl.
  repeat split; try done.
  rewrite Hres. simpl. unfold get at 1.
  destruct (user_view_lookup
              (Py.str (get (new_record idinfo (utcnow o 0) (new_ObjectId o)) "_id"))
              idinfo) as (-> & _).
  simpl. unfold get. by rewrite Hid.
Qed.

(** A later sign-in for the email rewrites the record where it stands. *)
Lemma step_rewrite cfg db o payload coll d email :
  records_for email coll = [] →
  get d "email" = email →
  authenticated_as email (response_of cfg db o payload (coll ++ [d])%list) →
  ∃ d' a,
    response_of cfg db o payload (coll ++ [d])%list = inr a
    ∧ store_after cfg db o payload (coll ++ [d])%list = (coll ++ [d'])%list
    ∧ get d' "email" = email
    ∧ get d' "_id" = get d "_id"
    ∧ get d' "created_at" = get d "created_at"
    ∧ get d' "updated_at" = VDatetime (utcnow o 0)
    ∧ get (user a) "id" = VStr (Py.str (get d "_id")).
Proof.
  intros Hnone Hdm Ha.
  destruct (response_of cfg db o payload (coll ++ [d])%list) as [h|a] eqn:Hr;
    [done|].
  destruct (serve_issued _ _ _ _ _ _ Hr)
    as (idinfo & d0 & tok & _ & _ & Hv & _ & _ & _ & Hu & _ & Hd & _ & Hres & _).
  pose proof (authenticated_email _ _ _ _ _ _ _ _ Hr Hv Ha) as He.
  assert (Hm : Mongo.matches (by_email (get idinfo "email")) d = true).
  { rewrite matches_by_email. apply bool_decide_eq_true_2. congruence. }
  assert (Hn : List.filter (Mongo.matches (by_email (get idinfo "email"))) coll = []).
  { by rewrite He. }
  rewrite update_one_modify in Hu by done. injection Hu as Hu.
  rewrite <- Hu in Hd.
  rewrite find_one_hit in Hd; [|done | apply matches_set_union].
  injection Hd as <-.
  destruct kept_fields as (Hid & Hcr & _).
  exists (set_fields idinfo (utcnow o 0) ∪ d), a.
  split; [done|]. split; [done|].
  split; [rewrite <- He; apply set_union_written, set_fields_lookup|].
  split; [by apply get_set_union_kept|].
  split; [by apply get_set_union_kept|].
  split; [apply set_union_written, set_fields_lookup|].
  rewrite Hres. simpl. unfold get at 1.
  destruct (user_view_lookup
              (Py.str (get (set_fields idinfo (utcnow o 0) ∪ d) "_id")) idinfo)
    as (-> & _).
  simpl. by rewrite get_set_union_kept.
Qed.

Lemma records_for_last coll email d :
  records_for email coll = [] → get d "email" = email →
  records_for email (coll ++ [d])%list = [d].
Proof.
  intros Hn He. unfold records_for in *. apply filter_app_last; [done|].
  rewrite matches_by_email. by apply bool_decide_eq_true_2.
Qed.

Lemma later_sign_ins cfg db coll email oid created rest :
  records_for email coll = [] →
  ∀ d,
    get d "email" = email → get d "_id" = VObjectId oid →
    get d "created_at" = VDatetime created →
    Forall (λ rc, authenticated_as email rc.1)
      (serve_all cfg db rest (coll ++ [d])%list) →
    Forall2 (one_record_after coll email oid created) rest
      (serve_all cfg db rest (coll ++ [d])%list).
Proof.
  intros Hn. induction rest as [|[o payload] rest IH]; intros d He Hid Hcr Hall.
  - constructor.
  - simpl in *. apply Forall_cons in Hall as [Ha Hrest]. simpl in Ha.
    destruct (step_rewrite _ _ _ _ _ _ _ Hn He Ha)
      as (d' & a & Hr & Hs & He' & Hid' & Hcr' & Hup & Hret).
    rewrite Hs in Hrest |- *. constructor.
    + exists d', a. simpl. split; [done|].
      split; [by apply records_for_last|].
      split; [congruence|]. split; [congruence|]. split; [done|].
      split; [done|]. by rewrite Hret, Hid.
    + apply IH; [done | congruence | congruence | done].
Qed.


Lemma three_sign_ins_succeed :
  Forall (λ rc : (HTTPException + AuthResponse) * list (gmap string value),
            authenticated_as (VStr "alice@example.com") rc.1)
    (serve_all Scenario.cfg (Some MongoDatabase) three_sign_ins []).
Proof.
  apply (Forall_of_forallb _
           (λ rc, authenticated_asb (VStr "alice@example.com") rc.1)).
  - intros rc. apply authenticated_asb_true.
  - vm_compute. reflexivity.
Qed.


(** The second sign-in of the scenario: same identifier, new name, still
    one record. *)
Example second_sign_in_updates_name :
  (λ rc : (HTTPException + AuthResponse) * list (gmap string value),
     (match rc.1 with
      | inr a => Some (get (user a) "id", get (user a) "name")
      | inl _ => None
      end,
      (λ d, (get d "_id", get d "name")) <$> rc.2))
  <$> serve_all Scenario.cfg (Some MongoDatabase) three_sign_ins []
  = [(Some (VStr "0000000000000000000000ff", VStr "Alice"),
      [(VObjectId 255, VStr "Alice")]);
     (Some (VStr "0000000000000000000000ff", VStr "Alice B."),
      [(VObjectId 255, VStr "Alice B.")]);
     (Some (VStr "0000000000000000000000ff", VNone),
      [(VObjectId 255, VNone)])].
Proof. vm_compute. reflexivity. Qed.

(** * Further properties *)

(** ** The diagnostics endpoint *)

Example utf8_samples :
  String.length "✅" = 3%nat ∧ Diagnostics.utf8_length "✅ Set" = 5%nat
  ∧ Diagnostics.utf8_take 2 "⚠️  x" = "⚠️".
Proof. repeat split; reflexivity. Qed.

Section Utf8.

Import Diagnostics.

Lemma utf8_take_prefix n s : ∃ t, s = utf8_take n s ++ t.
Proof.
  revert n. induction s as [|c s IH]; intros n; simpl.
  - by exists "".
  - destruct (is_continuation c).
    + destruct (IH n) as [t Ht]. exists t. exact (f_equal (String c) Ht).
    + destruct n as [|n]; [by eexists|].
      destruct (IH n) as [t Ht]. exists t. exact (f_equal (String c) Ht).
Qed.

Lemma utf8_length_take n s :
  utf8_length (utf8_take n s) = Nat.min n (utf8_length s).
Proof.
  revert n. induction s as [|c s IH]; intros n; simpl.
  - by rewrite Nat.min_0_r.
  - destruct (is_continuation c) eqn:Hc; simpl; rewrite ?Hc.
    + apply IH.
    + destruct n as [|n]; simpl; [done|]. rewrite Hc. by rewrite IH.
Qed.

Lemma utf8_take_all n s : (utf8_length s ≤ n)%nat → utf8_take n s = s.
Proof.
  revert n. induction s as [|c s IH]; intros n; simpl; [done|].
  destruct (is_continuation c).
  - intros H. by rewrite IH.
  - destruct n as [|n]; [lia|]. intros H. rewrite IH; [done | lia].
Qed.

End Utf8.

Ltac report_cases w :=
  unfold Diagnostics.test_database;
  destruct (Diagnostics.import_db w) as [e|[h|]];
    [destruct (Diagnostics.is_ImportError e)
    |destruct (Diagnostics.list_collection_names h) as [e|names]
    |]; cbv zeta.

Lemma insert_keeps_dom {V} (m : gmap string V) (fields : gset string) k v :
  dom m = fields → k ∈ fields → dom (<[k := v]> m) = fields.
Proof.
  intros <- Hk. rewrite dom_insert_L.
  by apply subseteq_union_1_L, singleton_subseteq_l.
Qed.

Lemma report_field_names :
  Forall (λ k, k ∈ Diagnostics.report_fields)
    ["backend"; "database"; "database_url"; "database_name";
     "connection_status"; "collections"].
Proof.
  repeat apply Forall_cons_2; try apply Forall_nil_2;
    apply (bool_decide_unpack _); vm_compute; exact I.
Qed.

Lemma dom_singleton_collections (v : Diagnostics.jvalue) :
  dom (<["backend" := v]> (<["database" := v]> (<["database_url" := v]>
       (<["database_name" := v]> (<["connection_status" := v]>
       ({[ "collections" := v ]} : gmap string Diagnostics.jvalue))))))
  = Diagnostics.report_fields.
Proof.
  rewrite !dom_insert_L, dom_singleton_L. vm_compute. reflexivity.
Qed.

Lemma dom_initial_report v1 v2 v3 v4 v5 (v6 : Diagnostics.jvalue) :
  dom (<["backend" := v1]> (<["database" := v2]> (<["database_url" := v3]>
       (<["database_name" := v4]> (<["connection_status" := v5]>
       ({[ "collections" := v6 ]} : gmap string Diagnostics.jvalue))))))
  = Diagnostics.report_fields.
Proof.
  rewrite <- (dom_singleton_collections v1).
  rewrite !dom_insert_L, !dom_singleton_L. done.
Qed.

Ltac dom_report :=
  first
    [ apply dom_initial_report
    | apply insert_keeps_dom;
      [ dom_report
      | pose proof report_field_names as Hnames;
        repeat (apply Forall_cons in Hnames as [? Hnames]); assumption ] ].

(** The report always has the same six keys, and the backend line is
    never touched. *)
Theorem report_has_fixed_shape (w : Diagnostics.world) :
  dom (Diagnostics.test_database w) = Diagnostics.report_fields
  ∧ Diagnostics.test_database w !! "backend" = Some (Diagnostics.JStr "✅ Running").
Proof.
  split.
  - report_cases w; dom_report.
  - report_cases w; by simplify_map_eq.
Qed.

(** The two environment lines of the report say only whether
    [DATABASE_URL] and [DATABASE_NAME] are set to a non-empty text:
    whatever the database branch stored under these keys is replaced,
    and the initial [None] never comes out. *)
Theorem report_environment_lines (w : Diagnostics.world) :
  Diagnostics.test_database w !! "database_url"
  = Some (Diagnostics.JStr
            (if Diagnostics.env_truthy (Diagnostics.getenv w "DATABASE_URL")
             then "✅ Set" else "❌ Not Set"))
  ∧ Diagnostics.test_database w !! "database_name"
    = Some (Diagnostics.JStr
              (if Diagnostics.env_truthy (Diagnostics.getenv w "DATABASE_NAME")
               then "✅ Set" else "❌ Not Set"))
  ∧ ∀ w', Diagnostics.getenv w' = Diagnostics.getenv w →
      Diagnostics.test_database w' !! "database_url"
      = Diagnostics.test_database w !! "database_url"
      ∧ Diagnostics.test_database w' !! "database_name"
        = Diagnostics.test_database w !! "database_name".
Proof.
  assert (H : ∀ w0,
    Diagnostics.test_database w0 !! "database_url"
    = Some (Diagnostics.JStr
              (if Diagnostics.env_truthy (Diagnostics.getenv w0 "DATABASE_URL")
               then "✅ Set" else "❌ Not Set"))
    ∧ Diagnostics.test_database w0 !! "database_name"
      = Some (Diagnostics.JStr
                (if Diagnostics.env_truthy (Diagnostics.getenv w0 "DATABASE_NAME")
                 then "✅ Set" else "❌ Not Set"))).
  { intros w0. split; report_cases w0; by simplify_map_eq. }
  destruct (H w) as [H1 H2]. split; [done|]. split; [done|].
  intros w' Hw. destruct (H w') as [H1' H2'].
  rewrite H1, H2, H1', H2', Hw. done.
Qed.

(** The report lists at most ten collections: the first ten names the
    database answers, and none when there is no database object or the
    listing fails. *)
Theorem report_lists_at_most_ten_collections (w : Diagnostics.world) :
  ∃ l,
    Diagnostics.test_database w !! "collections" = Some (Diagnostics.JList l)
    ∧ (length l ≤ 10)%nat
    ∧ l = match Diagnostics.import_db w with
          | inr (Some h) =>
              match Diagnostics.list_collection_names h with
              | inr names => take 10 names
              | inl _ => []
              end
          | _ => []
          end.
Proof.
  report_cases w; eexists; (split; [by simplify_map_eq|]);
    (split; [|reflexivity]); simpl; try lia.
  rewrite length_take. lia.
Qed.

(** A database object that cannot list its collections is still
    reported as connected; the reason shown is cut to the first fifty
    characters of the error text, and shown whole when it is no longer
    than that.  The same cut applies to an import that fails with
    anything but an import error. *)
Theorem report_cuts_error_text (w : Diagnostics.world) (e : exn) :
  (∀ h, Diagnostics.import_db w = inr (Some h) →
        Diagnostics.list_collection_names h = inl e →
        Diagnostics.test_database w !! "connection_status"
        = Some (Diagnostics.JStr "Connected")
        ∧ Diagnostics.test_database w !! "collections"
          = Some (Diagnostics.JList [])
        ∧ Diagnostics.test_database w !! "database"
          = Some (Diagnostics.JStr
                    ("⚠️  Connected but Error: "
                     ++ Diagnostics.utf8_take 50 (exn_str e))))
  ∧ (Diagnostics.import_db w = inl e →
     Diagnostics.is_ImportError e = false →
     Diagnostics.test_database w !! "connection_status"
     = Some (Diagnostics.JStr "Not Connected")
     ∧ Diagnostics.test_database w !! "database"
       = Some (Diagnostics.JStr
                 ("❌ Error: " ++ Diagnostics.utf8_take 50 (exn_str e))))
  ∧ (Diagnostics.utf8_length (Diagnostics.utf8_take 50 (exn_str e)) ≤ 50)%nat
  ∧ (∃ t, exn_str e = Diagnostics.utf8_take 50 (exn_str e) ++ t)
  ∧ ((Diagnostics.utf8_length (exn_str e) ≤ 50)%nat →
     Diagnostics.utf8_take 50 (exn_str e) = exn_str e).
Proof.
  split; [|split; [|split; [|split]]].
  - intros h Hi Hl. unfold Diagnostics.test_database. rewrite Hi, Hl.
    cbv zeta. repeat split; by simplify_map_eq.
  - intros Hi Hc. unfold Diagnostics.test_database. rewrite Hi, Hc.
    cbv zeta. split; by simplify_map_eq.
  - rewrite utf8_length_take. lia.
  - apply utf8_take_prefix.
  - apply utf8_take_all.
Qed.

(** ** The sign-in handler: every path *)

Ltac path_step :=
  exec;
  match goal with
  | |- context [verify_oauth2_token ?o ?c ?a] =>
      destruct (verify_oauth2_token o c a) eqn:?
  | |- context [py_in ?v ?l] => destruct (py_in v l) eqn:?
  | |- context [truthy ?v] => destruct (truthy v) eqn:?
  | |- context [update_one_fault ?o] => destruct (update_one_fault o) eqn:?
  | |- context [Mongo.update_one ?a ?b ?c ?d ?e ?f] =>
      destruct (Mongo.update_one a b c d e f) eqn:?
  | |- context [find_one_fault ?o] => destruct (find_one_fault o) eqn:?
  | |- context [Mongo.find_one ?a ?b] => destruct (Mongo.find_one a b) eqn:?
  | |- context [timedelta_minutes ?m] => destruct (timedelta_minutes m) eqn:?
  | |- context [datetime_add ?a ?b] => destruct (datetime_add a b) eqn:?
  | |- context [jwt_encode ?o ?a ?b ?c] => destruct (jwt_encode o a b c) eqn:?
  end.

Ltac walk := repeat path_step; exec.




(** ** The sign-in handler and the other records *)

(** The two shapes of a successful upsert. *)
Lemma upsert_shape idinfo now oid coll coll' :
  Mongo.update_one (by_email (get idinfo "email")) (set_fields idinfo now)
    {[ "created_at" := VDatetime now ]} true oid coll = inr coll' →
  (records_for (get idinfo "email") coll = []
   ∧ coll' = (coll ++ [new_record idinfo now oid])%list)
  ∨ (∃ coll1 d coll2,
       coll = (coll1 ++ d :: coll2)%list
       ∧ records_for (get idinfo "email") coll1 = []
       ∧ Mongo.matches (by_email (get idinfo "email")) d = true
       ∧ coll' = (coll1 ++ (set_fields idinfo now ∪ d) :: coll2)%list).
Proof.
  intros Hu.
  destruct (first_match_split (by_email (get idinfo "email")) coll)
    as [Hnone | (c1 & d & c2 & -> & H1 & Hm)].
  - left. split; [done|]. rewrite update_one_insert in Hu by done.
    destruct (Mongo.has_id _ _); [discriminate|]. by injection Hu as <-.
  - right. exists c1, d, c2. rewrite update_one_modify in Hu by done.
    injection Hu as Hu. split; [reflexivity|]. split; [exact H1|].
    split; [exact Hm | by symmetry].
Qed.

Lemma matches_other_email email email' d :
  email ≠ email' → get d "email" = email →
  Mongo.matches (by_email email') d = false.
Proof.
  intros Hne He. rewrite matches_by_email. apply bool_decide_eq_false_2.
  congruence.
Qed.

Lemma get_email_set_union idinfo now d :
  get (set_fields idinfo now ∪ d) "email" = get idinfo "email".
Proof. apply set_union_written, set_fields_lookup. Qed.

Lemma get_email_new_record idinfo now oid :
  get (new_record idinfo now oid) "email" = get idinfo "email".
Proof.
  unfold get. by destruct (new_record_lookup idinfo now oid) as (_ & -> & _).
Qed.

Lemma matches_get email d :
  Mongo.matches (by_email email) d = true → get d "email" = email.
Proof. rewrite matches_by_email. apply bool_decide_eq_true_1. Qed.

(** What an upsert for one email does to the records of every email. *)
Lemma upsert_records_for idinfo now oid coll coll' :
  Mongo.update_one (by_email (get idinfo "email")) (set_fields idinfo now)
    {[ "created_at" := VDatetime now ]} true oid coll = inr coll' →
  (∀ email', get idinfo "email" ≠ email' →
     records_for email' coll' = records_for email' coll)
  ∧ length (records_for (get idinfo "email") coll')
    = Nat.max 1 (length (records_for (get idinfo "email") coll))
  ∧ (length coll ≤ length coll' ≤ S (length coll))%nat.
Proof.
  intros Hu.
  destruct (upsert_shape _ _ _ _ _ Hu)
    as [[Hn ->] | (c1 & d & c2 & -> & H1 & Hm & ->)].
  - split; [|split].
    + intros email' Hne. unfold records_for. rewrite List.filter_app. simpl.
      rewrite (matches_other_email (get idinfo "email"));
        [by rewrite app_nil_r | done | apply get_email_new_record].
    + rewrite records_for_last; [|done | apply get_email_new_record].
      by rewrite Hn.
    + rewrite length_app. simpl. lia.
  - split; [|split].
    + intros email' Hne. unfold records_for. rewrite !List.filter_app. simpl.
      rewrite (matches_other_email (get idinfo "email") email' d);
        [|done | by apply matches_get].
      rewrite (matches_other_email (get idinfo "email"));
        [done | done | apply get_email_set_union].
    + unfold records_for in *. rewrite !List.filter_app, H1. simpl.
      rewrite Hm, matches_set_union. simpl. lia.
    + rewrite !length_app. simpl. lia.
Qed.

(** A request never touches the records of an email other than the one
    it verified: they are the same, in the same order, before and after,
    whatever the outcome. *)
Theorem other_emails_keep_their_records
    (cfg : settings) (db : option Database) (o : oracle)
    (payload : GoogleCredential) (coll : list (gmap string value))
    (email' : value) :
  (∀ idinfo,
     verify_oauth2_token o (credential payload) (GOOGLE_CLIENT_ID cfg)
     = inr idinfo → get idinfo "email" ≠ email') →
  records_for email' (store_after cfg db o payload coll)
  = records_for email' coll.
Proof.
  intros Hne.
  destruct (store_after_cases cfg db o payload coll)
    as [-> | (_ & idinfo & Hv & Hu)]; [done|].
  destruct (upsert_records_for _ _ _ _ _ Hu) as (Hother & _).
  apply Hother. by apply Hne.
Qed.


Lemma other_emails_witness :
  records_for (VStr "bob@example.com")
    (store_after Scenario.cfg (Some MongoDatabase) Scenario.first Scenario.cred
       [TwoUsers.bob_record])
  = records_for (VStr "bob@example.com") [TwoUsers.bob_record]
  ∧ length (store_after Scenario.cfg (Some MongoDatabase) Scenario.first
              Scenario.cred [TwoUsers.bob_record]) = 2%nat.
Proof.
  split; [|vm_compute; reflexivity].
  apply (other_emails_keep_their_records Scenario.cfg (Some MongoDatabase)
           Scenario.first Scenario.cred [TwoUsers.bob_record]
           (VStr "bob@example.com")).
  intros idinfo [= <-]. vm_compute. discriminate.
Defined.

(** ** The sign-in handler: token, view and stored profile *)

(** The subject and email of the token are the [id] and [email] of the
    user view returned with it. *)
Theorem token_and_view_agree
    (cfg : settings) (db : option Database) (o : oracle)
    (payload : GoogleCredential) (coll : list (gmap string value))
    (a : AuthResponse) :
  response_of cfg db o payload coll = inr a →
  ∃ claims id,
    jwt_encode o claims (JWT_SECRET cfg) JWT_ALG = inr (token a)
    ∧ claims !! "sub" = Some (VStr id)
    ∧ user a !! "id" = Some (VStr id)
    ∧ claims !! "email" = user a !! "email".
Proof.
  intros Hr.
  destruct (serve_issued _ _ _ _ _ _ Hr)
    as (idinfo & d & tok & _ & _ & _ & _ & _ & _ & _ & _ & _ & Hj & -> & _).
  eexists _, (Py.str (get d "_id")). split; [exact Hj|]. simpl.
  destruct (user_view_lookup (Py.str (get d "_id")) idinfo) as (-> & -> & _).
  unfold token_claims. repeat split; by simplify_map_eq.
Qed.

Lemma token_and_view_witness :
  ∃ claims id,
    Scenario.toy_encode claims "dev-secret-change-me" "HS256"
    = inr "0000000000000000000000ff.dev-secret-change-me.HS256"
    ∧ claims !! "sub" = Some (VStr id)
    ∧ user_view "0000000000000000000000ff" (Scenario.alice (VStr "Alice")) !! "id"
      = Some (VStr id).
Proof.
  destruct (token_and_view_agree _ _ _ _ _ _ first_sign_in_response)
    as (claims & id & Hj & Hs & Hi & _).
  exists claims, id. split; [exact Hj|]. split; [exact Hs | exact Hi].
Defined.

(** After an upsert that went through, the lookup by email finds a
    record that carries every field of the [$set] document. *)
Lemma upsert_then_find idinfo now oid coll coll' :
  Mongo.update_one (by_email (get idinfo "email")) (set_fields idinfo now)
    {[ "created_at" := VDatetime now ]} true oid coll = inr coll' →
  ∃ c1 r c2,
    coll' = (c1 ++ r :: c2)%list
    ∧ records_for (get idinfo "email") c1 = []
    ∧ Mongo.matches (by_email (get idinfo "email")) r = true
    ∧ Mongo.find_one (by_email (get idinfo "email")) coll' = Some r
    ∧ (∀ k v, set_fields idinfo now !! k = Some v → r !! k = Some v)
    ∧ (r = new_record idinfo now oid
       ∨ ∃ d, r = set_fields idinfo now ∪ d ∧ coll = (c1 ++ d :: c2)%list).
Proof.
  intros Hu.
  destruct (upsert_shape _ _ _ _ _ Hu)
    as [[Hn ->] | (c1 & d & c2 & -> & H1 & Hm & ->)].
  - exists coll, (new_record idinfo now oid), [].
    split; [done|]. split; [done|].
    split; [apply matches_new_record|].
    split; [apply find_one_hit; [done | apply matches_new_record]|].
    split; [|by left].
    intros k v Hk. unfold new_record.
    assert (k ≠ "_id").
    { intros ->. assert (H : "_id" ∈ dom (set_fields idinfo now))
        by (apply elem_of_dom; by eexists).
      rewrite dom_set_fields in H. by destruct kept_fields as (? & _). }
    rewrite lookup_insert_ne by done.
    by do 2 (apply lookup_union_Some_l).
  - exists c1, (set_fields idinfo now ∪ d), c2.
    split; [reflexivity|]. split; [exact H1|].
    split; [apply matches_set_union|].
    split; [apply find_one_hit; [exact H1 | apply matches_set_union]|].
    split; [intros k v; apply lookup_union_Some_l|].
    right. exists d. split; reflexivity.
Qed.



Lemma set_fields_same_but_updated_at idinfo now now' k :
  k ≠ "updated_at" →
  set_fields idinfo now' !! k = set_fields idinfo now !! k.
Proof.
  intros Hk. unfold set_fields.
  rewrite !lookup_insert. repeat case_decide; try reflexivity.
  rewrite !lookup_singleton_ne by congruence. reflexivity.
Qed.



(** ** The sign-in handler: the expiry and failures after the write *)

Lemma datetime_add_range t delta r :
  datetime_add t delta = inr r → 0 ≤ t + delta ≤ datetime_max.
Proof.
  unfold datetime_add. case_match eqn:H; [discriminate|].
  intros _. apply orb_false_iff in H as [H1 H2]. lia.
Qed.

Lemma datetime_add_overflow t delta e :
  datetime_add t delta = inl e →
  exn_class e = "OverflowError" ∧ ¬ (0 ≤ t + delta ≤ datetime_max).
Proof.
  unfold datetime_add. case_match eqn:H; [|discriminate].
  intros [= <-]. split; [done|]. apply orb_true_iff in H as [H|H]; lia.
Qed.

Lemma timedelta_minutes_overflow m e :
  timedelta_minutes m = inl e →
  exn_class e = "OverflowError" ∧ datetime_max < Z.abs (m * us_per_minute).
Proof.
  unfold timedelta_minutes.
  case_match eqn:H1; [|case_match eqn:H2; [|discriminate]];
    intros [= <-]; (split; [done|]).
  - apply orb_true_iff in H1 as [H|H]; apply Z.ltb_lt in H;
      cbv delta [datetime_max us_per_day us_per_minute us_per_second] in *;
      change (2 ^ 31) with 2147483648 in H;
      Z.to_euclidean_division_equations; lia.
  - apply Z.ltb_lt in H2.
    cbv delta [datetime_max us_per_day us_per_minute us_per_second] in *.
    Z.to_euclidean_division_equations. lia.
Qed.

(** The expiry of every token issued is a representable [datetime]: a
    sign-in whose clock reading plus the configured duration leaves the
    range of [datetime] is never answered with a token. *)
Theorem token_expiry_is_representable
    (cfg : settings) (db : option Database) (o : oracle)
    (payload : GoogleCredential) (coll : list (gmap string value))
    (a : AuthResponse) :
  response_of cfg db o payload coll = inr a →
  0 ≤ utcnow o 1 + JWT_EXPIRES_MIN cfg * us_per_minute ≤ datetime_max.
Proof.
  open_handler. destruct db as [db'|]; [|discriminate].
  case_bool_decide; [discriminate|].
  walk; try discriminate. intros _.
  match goal with
  | Ht : timedelta_minutes _ = inr _, Ha : datetime_add _ _ = inr _ |- _ =>
      apply timedelta_minutes_inr in Ht as ->;
      by apply datetime_add_range in Ha
  end.
Qed.

Lemma token_expiry_is_representable_witness :
  0 ≤ Scenario.t0 + 1 + 43200 * us_per_minute ≤ datetime_max.
Proof.
  exact (token_expiry_is_representable _ _ _ _ _ _ first_sign_in_response).
Defined.

(** The handler from the lookup on, once the write has gone through. *)
Lemma serve_after_write cfg db o payload coll idinfo coll' r :
  credential payload ≠ "" →
  verify_oauth2_token o (credential payload) (GOOGLE_CLIENT_ID cfg) = inr idinfo →
  py_in (get idinfo "iss") accepted_issuers = true →
  truthy (get idinfo "email") = true →
  update_one_fault o = None →
  Mongo.update_one (by_email (get idinfo "email"))
    (set_fields idinfo (utcnow o 0))
    {[ "created_at" := VDatetime (utcnow o 0) ]} true
    (new_ObjectId o) coll = inr coll' →
  find_one_fault o = None →
  Mongo.find_one (by_email (get idinfo "email")) coll' = Some r →
  let before :=
    [Call (VerifyOauth2Token (credential payload) (GOOGLE_CLIENT_ID cfg));
     Call Utcnow;
     Call (UpdateOne (by_email (get idinfo "email"))
             (set_fields idinfo (utcnow o 0))
             {[ "created_at" := VDatetime (utcnow o 0) ]} true);
     Call (FindOne (by_email (get idinfo "email")));
     Call Utcnow] in
  let failed (e : exn) : HTTPException + AuthResponse :=
    inl {| status_code := 401;
           detail := "Invalid Google token: " ++ exn_str e |} in
  serve cfg (Some db) o payload coll
  = match timedelta_minutes (JWT_EXPIRES_MIN cfg) with
    | inl e => (failed e, coll', before)
    | inr delta =>
        match datetime_add (utcnow o 1) delta with
        | inl e => (failed e, coll', before)
        | inr exp =>
            let claims :=
              token_claims (Py.str (get r "_id")) (get idinfo "email") exp in
            let encode := Call (JwtEncode claims (JWT_SECRET cfg) JWT_ALG) in
            match jwt_encode o claims (JWT_SECRET cfg) JWT_ALG with
            | inl e => (failed e, coll', (before ++ [encode])%list)
            | inr tok =>
                (inr {| token := tok;
                        user := user_view (Py.str (get r "_id")) idinfo |},
                 coll', (before ++ [encode])%list)
            end
        end
    end.
Proof.
  intros Hc Hv Hi He Hf Hu Hr Hd. cbv zeta. open_handler.
  rewrite bool_decide_eq_false_2 by exact Hc.
  exec. rewrite Hv, Hi. exec. rewrite He. exec. rewrite Hf.
  unfold by_email, set_fields in Hu, Hd. rewrite Hu. exec. rewrite Hr, Hd.
  exec. destruct (timedelta_minutes _); [reflexivity|].
  destruct (datetime_add _ _); [reflexivity|].
  exec. destruct (jwt_encode o _ _ _); reflexivity.
Qed.

(** Once the upsert has gone through, the record stays whatever comes
    next.  When the clock reading plus the configured duration is not a
    representable [datetime], the sign-in is answered 401 with the text
    of an [OverflowError], the encoder is not called and the record that
    was written is in the collection; when the encoder raises, the answer
    is 401 with the encoder's text and the record is there as well. *)
Theorem failure_after_write_keeps_record
    (cfg : settings) (db : Database) (o : oracle) (payload : GoogleCredential)
    (coll coll' : list (gmap string value)) (idinfo : gmap string value) :
  credential payload ≠ "" →
  verify_oauth2_token o (credential payload) (GOOGLE_CLIENT_ID cfg) = inr idinfo →
  py_in (get idinfo "iss") accepted_issuers = true →
  truthy (get idinfo "email") = true →
  update_one_fault o = None →
  find_one_fault o = None →
  Mongo.update_one (by_email (get idinfo "email"))
    (set_fields idinfo (utcnow o 0))
    {[ "created_at" := VDatetime (utcnow o 0) ]} true
    (new_ObjectId o) coll = inr coll' →
  ∃ r,
    Mongo.find_one (by_email (get idinfo "email")) coll' = Some r
    ∧ store_after cfg (Some db) o payload coll = coll'
    ∧ (¬ (0 ≤ utcnow o 1 + JWT_EXPIRES_MIN cfg * us_per_minute ≤ datetime_max) →
       ∃ e, exn_class e = "OverflowError"
            ∧ response_of cfg (Some db) o payload coll
              = inl {| status_code := 401;
                       detail := "Invalid Google token: " ++ exn_str e |}
            ∧ existsb is_jwt_encode (calls_of cfg (Some db) o payload coll)
              = false)
    ∧ (∀ e claims,
         0 ≤ utcnow o 1 ≤ datetime_max →
         0 ≤ utcnow o 1 + JWT_EXPIRES_MIN cfg * us_per_minute ≤ datetime_max →
         claims = token_claims (Py.str (get r "_id")) (get idinfo "email")
                    (utcnow o 1 + JWT_EXPIRES_MIN cfg * us_per_minute) →
         jwt_encode o claims (JWT_SECRET cfg) JWT_ALG = inl e →
         response_of cfg (Some db) o payload coll
         = inl {| status_code := 401;
                  detail := "Invalid Google token: " ++ exn_str e |}
         ∧ last (calls_of cfg (Some db) o payload coll)
           = Some (Call (JwtEncode claims (JWT_SECRET cfg) JWT_ALG))).
Proof.
  intros Hc Hv Hi He Hf Hr Hu.
  destruct (upsert_then_find _ _ _ _ _ Hu)
    as (c1 & r & c2 & _ & _ & _ & Hd & _).
  pose proof (serve_after_write cfg db o payload coll idinfo coll' r
                Hc Hv Hi He Hf Hu Hr Hd) as Hs.
  cbv zeta in Hs. exists r. split; [exact Hd|].
  unfold store_after, response_of, calls_of. rewrite Hs.
  split; [|split].
  - destruct (timedelta_minutes _); [reflexivity|].
    destruct (datetime_add _ _); [reflexivity|].
    destruct (jwt_encode o _ _ _); reflexivity.
  - intros Hout.
    destruct (timedelta_minutes _) as [e|delta] eqn:Ht.
    { exists e. split; [by apply timedelta_minutes_overflow in Ht as [? _]|].
      split; reflexivity. }
    apply timedelta_minutes_inr in Ht as ->.
    destruct (datetime_add _ _) as [e|exp] eqn:Ha.
    { exists e. split; [by apply datetime_add_overflow in Ha as [? _]|].
      split; reflexivity. }
    apply datetime_add_range in Ha. contradiction.
  - intros e claims Hnow Hin -> Henc.
    destruct (timedelta_minutes _) as [e'|delta] eqn:Ht.
    { apply timedelta_minutes_overflow in Ht as [_ Ht].
      unfold datetime_max in *. lia. }
    apply timedelta_minutes_inr in Ht as ->.
    destruct (datetime_add _ _) as [e'|exp] eqn:Ha.
    { apply datetime_add_overflow in Ha as [_ Ha]. contradiction. }
    apply datetime_add_inr in Ha as ->.
    rewrite Henc. split; reflexivity.
Qed.

Lemma failure_after_write_witness :
  ∃ r,
    Mongo.find_one (by_email (VStr "alice@example.com"))
      [new_record (Scenario.alice (VStr "Alice")) Scenario.t0 255] = Some r
    ∧ store_after Overflow.cfg (Some MongoDatabase) Scenario.first
        Scenario.cred []
      = [new_record (Scenario.alice (VStr "Alice")) Scenario.t0 255]
    ∧ ∃ e, exn_class e = "OverflowError"
           ∧ response_of Overflow.cfg (Some MongoDatabase) Scenario.first
               Scenario.cred []
             = inl {| status_code := 401;
                      detail := "Invalid Google token: " ++ exn_str e |}.
Proof.
  assert (Hu : Mongo.update_one
                 (by_email (get (Scenario.alice (VStr "Alice")) "email"))
                 (set_fields (Scenario.alice (VStr "Alice"))
                    (utcnow Scenario.first 0))
                 {[ "created_at" := VDatetime (utcnow Scenario.first 0) ]} true
                 (new_ObjectId Scenario.first) []
               = inr [new_record (Scenario.alice (VStr "Alice")) Scenario.t0 255])
    by (vm_compute; reflexivity).
  assert (Hc : credential Scenario.cred ≠ "") by discriminate.
  assert (Hi : py_in (get (Scenario.alice (VStr "Alice")) "iss")
                 accepted_issuers = true) by (vm_compute; reflexivity).
  assert (He : truthy (get (Scenario.alice (VStr "Alice")) "email") = true)
    by (vm_compute; reflexivity).
  assert (Hout : ¬ (0 ≤ utcnow Scenario.first 1
                        + JWT_EXPIRES_MIN Overflow.cfg * us_per_minute
                    ≤ datetime_max)).
  { vm_compute. intros [_ H]. apply H. reflexivity. }
  destruct (failure_after_write_keeps_record Overflow.cfg MongoDatabase
              Scenario.first Scenario.cred [] _ (Scenario.alice (VStr "Alice"))
              Hc eq_refl Hi He eq_refl eq_refl Hu)
    as (r & Hf & Hs & Hover & _).
  exists r. split; [exact Hf|]. split; [exact Hs|].
  destruct (Hover Hout) as (e & Hcl & Hr & _).
  exists e. split; [exact Hcl | exact Hr].
Defined.

(** ** The settings read from the environment *)

Lemma digit_val_pretty_char d :
  (d < 10)%N → digit_val (pretty_N_char d) = Some (Z.of_N d).
Proof.
  intros H.
  assert (d = 0 ∨ d = 1 ∨ d = 2 ∨ d = 3 ∨ d = 4 ∨ d = 5 ∨ d = 6 ∨ d = 7
          ∨ d = 8 ∨ d = 9)%N as Hd by lia.
  repeat (destruct Hd as [->|Hd]; [reflexivity|]). by subst.
Qed.

(** Reading back the digits [pretty_N_go] writes in front of [s]. *)
Lemma int_digits_pretty x :
  (0 < x)%N →
  ∃ k : nat, ∀ s b acc,
    int_digits (pretty_N_go x s) b acc
    = int_digits s true (acc * 10 ^ Z.of_nat k + Z.of_N x).
Proof.
  induction (N.lt_wf_0 x) as [x _ IH]. intros Hx.
  assert (Hd : (x `mod` 10 < 10)%N) by (apply N.mod_lt; lia).
  destruct (decide (x `div` 10 = 0)%N) as [Hq|Hq].
  - exists 1%nat. intros s b acc. rewrite pretty_N_go_step by done.
    rewrite Hq, pretty_N_go_0. simpl int_digits.
    rewrite (digit_val_pretty_char _ Hd). f_equal.
    assert (x = x `mod` 10)%N by (rewrite (N.div_mod x 10) at 1; lia).
    lia.
  - destruct (IH (x `div` 10)%N) as [k Hk].
    { apply N.div_lt; lia. }
    { by apply N.neq_0_lt_0. }
    exists (S k). intros s b acc. rewrite pretty_N_go_step by done.
    rewrite Hk. simpl int_digits.
    rewrite (digit_val_pretty_char _ Hd). f_equal.
    rewrite Nat2Z.inj_succ, Z.pow_succ_r by lia.
    pose proof (N.div_mod x 10). lia.
Qed.

Lemma pretty_starts_with_digit x s :
  (0 < x)%N →
  ∃ d t, (d < 10)%N ∧ pretty_N_go x s = String (pretty_N_char d) t.
Proof.
  revert s. induction (N.lt_wf_0 x) as [x _ IH]. intros s Hx.
  rewrite pretty_N_go_step by done.
  destruct (decide (x `div` 10 = 0)%N) as [Hq|Hq].
  - rewrite Hq, pretty_N_go_0. eexists _, _. split; [|reflexivity].
    apply N.mod_lt. lia.
  - apply IH; [apply N.div_lt; lia | by apply N.neq_0_lt_0].
Qed.

Ltac read_first_digit Hn :=
  lazymatch goal with
  | |- Py.int (String ?c ?t) = _ ∧ _ =>
      change (Py.int (String c t))
        with (match int_digits (String c t) false 0 with
              | Some n => @inr exn Z (1 * n)
              | None => inl (invalid_literal (String c t))
              end);
      change (Py.int (String "-" (String c t)))
        with (match int_digits (String c t) false 0 with
              | Some n => @inr exn Z (-1 * n)
              | None => inl (invalid_literal (String "-" (String c t)))
              end);
      rewrite Hn; split; f_equal; lia
  end.

Lemma int_of_digits d t n :
  (d < 10)%N →
  int_digits (String (pretty_N_char d) t) false 0 = Some n →
  Py.int (String (pretty_N_char d) t) = inr n
  ∧ Py.int (String "-" (String (pretty_N_char d) t)) = inr (- n).
Proof.
  intros H Hn.
  assert (d = 0 ∨ d = 1 ∨ d = 2 ∨ d = 3 ∨ d = 4 ∨ d = 5 ∨ d = 6 ∨ d = 7
          ∨ d = 8 ∨ d = 9)%N as Hd by lia.
  repeat (destruct Hd as [->|Hd]; [read_first_digit Hn|]).
  subst. read_first_digit Hn.
Qed.

(** [int] reads the decimal text of every integer back. *)
Lemma int_pretty (z : Z) : Py.int (pretty z) = inr z.
Proof.
  assert (Hpos : ∀ p, Py.int (pretty (N.pos p)) = inr (Z.pos p)
                      ∧ Py.int ("-" ++ pretty (N.pos p)) = inr (Z.neg p)).
  { intros p. unfold pretty at 1 2, pretty_N.
    rewrite decide_False by done.
    destruct (pretty_starts_with_digit (N.pos p) "") as (d & t & Hd & Ht);
      [lia|].
    destruct (int_digits_pretty (N.pos p)) as [k Hk]; [lia|].
    assert (Hn : int_digits (String (pretty_N_char d) t) false 0
                 = Some (Z.pos p)).
    { rewrite <- Ht, Hk. simpl. f_equal. }
    rewrite Ht. exact (int_of_digits d t _ Hd Hn). }
  destruct z as [|p|p].
  - reflexivity.
  - apply Hpos.
  - apply Hpos.
Qed.



Lemma int_blank s : lstrip s = "" → Py.int s = inl (invalid_literal s).
Proof. intros H. unfold Py.int. by rewrite H. Qed.


